(** * Amazon -> Pinterest automation backend: model and verified properties

    Shallow embedding of [src/trending_amazon_pinterest_bot.py] (the bot:
    product search, de-duplication, pin content, affiliate links, the
    per-category automation) and of [src/main.py] (credential encryption,
    the in-memory job registry, the background task and the job routes).

    Conventions
    - a Python [str] is a list of Unicode code points ([pystr]); [py "..."]
      writes an ASCII literal;
    - a Python [dict] with a fixed set of keys is a record whose optional
      keys are [option] fields; a dict used as a map is a [gmap];
    - network and randomness are explicit oracle arguments;
    - a Python exception is the [Raise] outcome of the task monad. *)

From Stdlib Require Import ZArith QArith String Ascii Strings.Byte.
From stdpp Require Import gmap strings list.

Local Open Scope Z_scope.

(* ===================================================================== *)
(** * Python strings                                                      *)
(* ===================================================================== *)

Module PyStr.

(** A Python [str]: the sequence of its code points. *)
Definition pystr : Type := list N.

(** ASCII literal. *)
Fixpoint py (s : string) : pystr :=
  match s with
  | EmptyString => []
  | String a s' => N_of_ascii a :: py s'
  end.

(** [s.startswith(p)] on the remaining input. *)
Fixpoint starts_with (p s : pystr) : bool :=
  match p, s with
  | [], _ => true
  | _ :: _, [] => false
  | a :: p', b :: s' => bool_decide (a = b) && starts_with p' s'
  end.

(** [sub in s]: some suffix of [s] starts with [sub]. *)
Fixpoint contains (sub s : pystr) : bool :=
  starts_with sub s ||
  match s with
  | [] => false
  | _ :: s' => contains sub s'
  end.

(** [s.split(sep)] for a non-empty [sep]: left-to-right, non-overlapping.
    [skip] counts the characters of a matched separator still to be
    consumed; [cur] is the current piece, reversed. *)
Fixpoint split_go (sep : pystr) (skip : nat) (cur : pystr) (s : pystr)
  : list pystr :=
  match s with
  | [] => [rev cur]
  | c :: s' =>
      match skip with
      | S k => split_go sep k cur s'
      | O =>
          if starts_with sep s
          then rev cur :: split_go sep (length sep - 1) [] s'
          else split_go sep 0 (c :: cur) s'
      end
  end.

Definition split (sep s : pystr) : list pystr := split_go sep 0 [] s.

(** [sep.join(parts)]. *)
Fixpoint join (sep : pystr) (parts : list pystr) : pystr :=
  match parts with
  | [] => []
  | [p] => p
  | p :: ps => p ++ sep ++ join sep ps
  end.

(** Truthiness of a [str]: non-empty. *)
Definition truthy (s : pystr) : bool :=
  match s with [] => false | _ => true end.

(** Truthiness of an optional value holding a [str] ([None] is falsy). *)
Definition truthy_opt (o : option pystr) : bool :=
  match o with Some s => truthy s | None => false end.

(** [l[:n]] for a Python [int] [n]: a negative bound counts from the end. *)
Definition slice_to {A : Type} (n : Z) (l : list A) : list A :=
  if (0 <=? n)%Z then take (Z.to_nat n) l
  else take (Z.to_nat (Z.of_nat (length l) + n)) l.

(** [len(s)] as a Python [int]. *)
Definition len {A : Type} (l : list A) : Z := Z.of_nat (length l).

(** A Python [bytes] object. *)
Definition bytes : Type := list byte.

End PyStr.

Import PyStr.

(* ===================================================================== *)
(** * Python exceptions                                                   *)
(* ===================================================================== *)

Module PyExn.

(** The exceptions the modelled code can meet. [Exception] stands for
    any other subclass of [Exception], with its message. *)
Inductive exn :=
| KeyError (key : pystr)
| ZeroDivisionError
| HTTPException (status_code : Z) (detail : pystr)
| Exception (message : pystr).

(** [str(e)]. For a [KeyError] it is the [repr] of the key, written here
    for keys without quotes or escapes. *)
Definition str_of_exn (e : exn) : pystr :=
  match e with
  | KeyError k => py "'" ++ k ++ py "'"
  | ZeroDivisionError => py "division by zero"
  | HTTPException _ _ => []
  | Exception m => m
  end.

(** The result of evaluating an expression: a value or a raised
    exception. *)
Inductive outcome (A : Type) :=
| Ok (a : A)
| Raise (e : exn).
Arguments Ok {A} a.
Arguments Raise {A} e.

Definition obind {A B : Type} (o : outcome A) (k : A -> outcome B)
  : outcome B :=
  match o with
  | Ok a => k a
  | Raise e => Raise e
  end.

End PyExn.

Import PyExn.

Declare Scope outcome_scope.
Delimit Scope outcome_scope with outcome.
Notation "x <~ o ; k" := (obind o (fun x => k))
  (at level 100, o at next level, right associativity) : outcome_scope.

(* ===================================================================== *)
(** * Credential encryption: [EncryptionManager] in [main.py]             *)
(* ===================================================================== *)

Module Vault.

(** The library functions [EncryptionManager] calls. They are not code of
    this repository and are taken as they are documented:
    - [str_encode], [bytes_decode]: [str.encode()] and [bytes.decode()]
      (UTF-8);
    - [urlsafe_b64encode], [urlsafe_b64decode]: module [base64];
    - [pbkdf2]: [PBKDF2HMAC(SHA256, length=32, salt, iterations=100000)
      .derive], from the salt and the password bytes;
    - [fernet_new]: the key check of the constructor [Fernet(key)];
    - [fernet_encrypt key now iv data]: [Fernet(key).encrypt(data)] at
      the time [now] with the random initialisation vector [iv];
    - [fernet_decrypt key token]: [Fernet(key).decrypt(token)]. *)
Record Primitives := {
  str_encode : pystr -> outcome bytes;
  bytes_decode : bytes -> outcome pystr;
  urlsafe_b64encode : bytes -> bytes;
  urlsafe_b64decode : bytes -> outcome bytes;
  pbkdf2 : bytes -> bytes -> bytes;
  fernet_new : bytes -> outcome unit;
  fernet_encrypt : bytes -> Z -> bytes -> bytes -> outcome bytes;
  fernet_decrypt : bytes -> bytes -> outcome bytes
}.

Section EncryptionManager.

Variable P : Primitives.

Local Open Scope outcome_scope.

(** [generate_key(password, salt)]; [urandom16] is what
    [os.urandom(16)] returns if it is called. *)
Definition generate_key (password : pystr) (salt : option bytes)
    (urandom16 : bytes) : outcome (bytes * bytes) :=
  let salt := match salt with None => urandom16 | Some s => s end in
  pw <~ str_encode P password;
  Ok (urlsafe_b64encode P (pbkdf2 P salt pw), salt).

(** [encrypt_data(data, key)]. *)
Definition encrypt_data (now : Z) (iv : bytes) (data : pystr)
    (key : bytes) : outcome pystr :=
  _ <~ fernet_new P key;
  d <~ str_encode P data;
  encrypted_data <~ fernet_encrypt P key now iv d;
  bytes_decode P (urlsafe_b64encode P encrypted_data).

(** [decrypt_data(encrypted_data, key)]. *)
Definition decrypt_data (encrypted_data : pystr) (key : bytes)
  : outcome pystr :=
  _ <~ fernet_new P key;
  e <~ str_encode P encrypted_data;
  decoded_data <~ urlsafe_b64decode P e;
  decrypted_data <~ fernet_decrypt P key decoded_data;
  bytes_decode P decrypted_data.

End EncryptionManager.

(** What the documentation of the libraries promises, as far as
    [EncryptionManager] relies on it: base64 decodes what it encodes and
    its output is text that encodes to itself; decoding undoes encoding;
    the derived key has the requested 32 bytes; [Fernet] accepts the
    url-safe base64 of any 32 bytes; and a token made with a key decrypts
    with that key to the data. *)
Record lawful (P : Primitives) : Prop := {
  b64_round_trip :
    forall b, urlsafe_b64decode P (urlsafe_b64encode P b) = Ok b;
  decode_encode :
    forall s b, str_encode P s = Ok b -> bytes_decode P b = Ok s;
  b64_is_text :
    forall b, exists s,
      bytes_decode P (urlsafe_b64encode P b) = Ok s
      /\ str_encode P s = Ok (urlsafe_b64encode P b);
  pbkdf2_length :
    forall salt pw, length (pbkdf2 P salt pw) = 32%nat;
  fernet_key_ok :
    forall raw, length raw = 32%nat ->
      fernet_new P (urlsafe_b64encode P raw) = Ok tt;
  fernet_round_trip :
    forall k now iv d, fernet_new P k = Ok tt ->
      exists token,
        fernet_encrypt P k now iv d = Ok token
        /\ fernet_decrypt P k token = Ok d
}.

End Vault.

(* ===================================================================== *)
(** * The bot: [trending_amazon_pinterest_bot.py]                         *)
(* ===================================================================== *)

Module Bot.

(** ** Data *)

(** A product dictionary. The keys written by the search extractor are
    [title], [url], [asin], [price], [image_url], [rating],
    [search_rank]; [product.update(detailed_info)] may add or overwrite
    [title], [price], [description], [features], [images], [rating],
    [reviews_count], [availability], [category]. An absent key is
    [None]; a key holding Python's [None] is [None] too, except for
    [image_url], the one key read with a default that tells the two
    apart: there the outer option is the key, the inner one the value. *)
Record Product := {
  title : option pystr;
  url : option pystr;
  asin : option pystr;
  price : option pystr;
  image_url : option (option pystr);
  rating : option pystr;
  search_rank : option Z;
  description : option pystr;
  features : option (list pystr);
  images : option (list pystr);
  reviews_count : option pystr;
  availability : option pystr;
  category : option pystr
}.

(** What the selectors of [_extract_product_from_search] find in one
    search-result container: the title text, the joined product URL, the
    [data-asin] attribute, the price text, the image source, the rating
    text and the number of previous siblings ([None] where that call
    raises). *)
Record Container := {
  c_title : option pystr;
  c_url : option pystr;
  c_asin : option pystr;
  c_price : option pystr;
  c_image_url : option pystr;
  c_rating : option pystr;
  c_previous_siblings : option Z
}.

(** [self.trending_categories]. *)
Definition trending_categories : gmap pystr (list pystr) :=
  list_to_map [
    (py "electronics",
      [py "best sellers electronics"; py "new releases electronics";
       py "movers and shakers electronics"]);
    (py "home",
      [py "best sellers home kitchen"; py "new releases home";
       py "trending home decor"]);
    (py "fashion",
      [py "best sellers clothing"; py "trending fashion accessories";
       py "new releases shoes"]);
    (py "health",
      [py "best sellers health personal care"; py "trending supplements";
       py "new releases beauty"]);
    (py "books",
      [py "best sellers books"; py "new releases kindle books";
       py "trending audiobooks"]);
    (py "sports",
      [py "best sellers sports outdoors"; py "trending fitness equipment";
       py "new releases sports"])
  ].

(** [self.category_hashtags]. *)
Definition category_hashtags : gmap pystr (list pystr) :=
  list_to_map [
    (py "electronics",
      [py "tech"; py "gadgets"; py "electronics"; py "innovation";
       py "deals"; py "amazon"; py "shopping"]);
    (py "home",
      [py "home"; py "homedecor"; py "interior"; py "lifestyle";
       py "design"; py "homeimprovement"]);
    (py "fashion",
      [py "fashion"; py "style"; py "outfit"; py "shopping"; py "trendy";
       py "accessories"]);
    (py "health",
      [py "health"; py "wellness"; py "selfcare"; py "fitness";
       py "lifestyle"; py "beauty"]);
    (py "books",
      [py "books"; py "reading"; py "bookworm"; py "education";
       py "learning"; py "kindle"]);
    (py "sports",
      [py "sports"; py "fitness"; py "outdoor"; py "active";
       py "exercise"; py "workout"])
  ].

(** ** Affiliate links *)

(** The ASIN after [marker]:
    [amazon_url.split(marker)[1].split('/')[0].split('?')[0]]. An index
    out of range is [None] (the [IndexError] of the source). *)
Definition asin_after (marker amazon_url : pystr) : option pystr :=
  rest ← split marker amazon_url !! 1%nat;
  seg ← split (py "/") rest !! 0%nat;
  split (py "?") seg !! 0%nat.

(** [create_affiliate_link(self, amazon_url)] with [self.amazon_tag =
    amazon_tag]. The [except] branch returns the URL unchanged. *)
Definition create_affiliate_link (amazon_tag amazon_url : pystr) : pystr :=
  let link (o : option pystr) :=
    match o with
    | Some a =>
        py "https://www.amazon.com/dp/" ++ a ++ py "?tag=" ++ amazon_tag
    | None => amazon_url
    end in
  if contains (py "/dp/") amazon_url
  then link (asin_after (py "/dp/") amazon_url)
  else if contains (py "/gp/product/") amazon_url
  then link (asin_after (py "/gp/product/") amazon_url)
  else amazon_url.

(** ** Pin titles *)

(** [engaging_prefixes]: an emoji code point, then ASCII text. *)
Definition engaging_prefixes : list pystr := [
  128293%N :: py " TRENDING: ";
  11088%N :: py " TOP RATED: ";
  128175%N :: py " MUST-HAVE: ";
  127919%N :: py " BEST SELLER: ";
  10024%N :: py " AMAZING: "
].

(** [random.choice(seq)]: the element at the index the generator draws,
    [draw] reduced below [len(seq)]. *)
Definition random_choice (draw : nat) (seq : list pystr) : pystr :=
  nth (draw mod length seq) seq [].

(** The first half of [_generate_pin_title]: the product's title, or
    ['Amazing Product'] without one, cut to 97 characters and an
    ellipsis when longer than 100. *)
Definition shortened_title (product : Product) : pystr :=
  let title := default (py "Amazing Product") (title product) in
  if (100 <? len title)%Z then take 97 title ++ py "..." else title.

(** [_generate_pin_title(self, product)]; [draw] is the generator's draw
    for [random.choice]. *)
Definition _generate_pin_title (draw : nat) (product : Product) : pystr :=
  let title := shortened_title product in
  if (len title <? 80)%Z
  then random_choice draw engaging_prefixes ++ title
  else title.

(** ** Pin descriptions, images and content *)

(** [_generate_pin_description(self, product, category)]. *)
Definition _generate_pin_description (product : Product) (category : pystr)
  : pystr :=
  let parts_description :=
    match description product with
    | Some d => if truthy d then [take 150 d] else []
    | None => []
    end in
  let parts_price :=
    match price product with
    | Some p => if truthy p then [128176%N :: py " Price: " ++ p] else []
    | None => []
    end in
  let parts_rating :=
    match rating product with
    | Some r => if truthy r then [11088%N :: py " Rating: " ++ r] else []
    | None => []
    end in
  let parts_features :=
    match features product with
    | Some (f :: fs) =>
        (10024%N :: py " Features:")
          :: map (fun feature => 8226%N :: py " " ++ take 50 feature)
               (take 2 (f :: fs))
    | _ => []
    end in
  let hashtags :=
    default [py "shopping"; py "deals"] (category_hashtags !! category) in
  let hashtag_string :=
    join (py " ") (map (fun tag => py "#" ++ tag) (take 8 hashtags)) in
  join [10%N]
    (parts_description ++ parts_price ++ parts_rating ++ parts_features
       ++ [10%N :: hashtag_string]
       ++ [10%N :: 128226%N ::
           py " This pin contains affiliate links. I may earn a commission at no extra cost to you."]).

(** [_get_best_image(self, product)]: the first detailed image, else the
    search thumbnail, else the empty string. The search extractor always
    writes the [image_url] key, possibly with the value [None]; that value
    is returned as it is ([None] here). *)
Definition _get_best_image (product : Product) : option pystr :=
  match images product with
  | Some (i :: _) => Some i
  | _ =>
      match image_url product with
      | Some v => v
      | None => Some []
      end
  end.

(** The bot object: its two constructor arguments. *)
Record Self := {
  pinterest_token : pystr;
  amazon_tag : pystr
}.

(** The pin content dictionary. *)
Record PinContent := {
  pc_title : pystr;
  pc_description : pystr;
  pc_image_url : option pystr;
  pc_affiliate_link : pystr
}.

(** [generate_pin_content(self, product, category)]; [None] when
    [product['url']] raises [KeyError]. *)
Definition generate_pin_content (self : Self) (draw : nat)
    (product : Product) (category : pystr) : option PinContent :=
  let t := _generate_pin_title draw product in
  let d := _generate_pin_description product category in
  let i := _get_best_image product in
  u ← url product;
  Some {| pc_title := t; pc_description := d; pc_image_url := i;
          pc_affiliate_link := create_affiliate_link (amazon_tag self) u |}.

(** ** Product search *)

(** [_extract_product_from_search(self, container)]: a product only when
    title, URL and ASIN are all truthy; any exception gives [None]. *)
Definition _extract_product_from_search (container : Container)
  : option Product :=
  if truthy_opt (c_title container) && truthy_opt (c_url container)
     && truthy_opt (c_asin container)
  then
    siblings ← c_previous_siblings container;
    Some {| title := c_title container;
            url := c_url container;
            asin := c_asin container;
            price := c_price container;
            image_url := Some (c_image_url container);
            rating := c_rating container;
            search_rank := Some (siblings + 1);
            description := None; features := None; images := None;
            reviews_count := None; availability := None;
            category := None |}
  else None.

(** The loop of [_search_amazon_products] over
    [product_containers[:max_results]]: falsy extractions are skipped. *)
Definition extract_all (containers : list Container) : list Product :=
  omap _extract_product_from_search containers.

(** [_search_amazon_products(self, search_term, max_results)].
    [search_page] answers the request for a search term with the result
    containers of the page, or [None] when the request raises; the
    function then returns [[]]. *)
Definition _search_amazon_products
    (search_page : pystr -> option (list Container))
    (search_term : pystr) (max_results : Z) : list Product :=
  match search_page search_term with
  | Some product_containers =>
      extract_all (slice_to max_results product_containers)
  | None => []
  end.

(** [_remove_duplicate_products(self, products)], with the set
    [seen_asins] as an accumulator. *)
Fixpoint remove_duplicates_from (seen_asins : gset pystr)
    (products : list Product) : list Product :=
  match products with
  | [] => []
  | product :: rest =>
      match asin product with
      | Some a =>
          if truthy a && bool_decide (a ∉ seen_asins)
          then product :: remove_duplicates_from ({[a]} ∪ seen_asins) rest
          else remove_duplicates_from seen_asins rest
      | None => remove_duplicates_from seen_asins rest
      end
  end.

Definition _remove_duplicate_products (products : list Product)
  : list Product :=
  remove_duplicates_from ∅ products.

(** The [for search_term in search_terms] loop of
    [get_trending_products]: [products] accumulates the results, the loop
    breaks once [len(products) >= max_products]. The sleep between
    searches changes no value. *)
Fixpoint search_loop (search_page : pystr -> option (list Container))
    (search_terms : list pystr) (per_term max_products : Z)
    (products : list Product) : list Product :=
  match search_terms with
  | [] => products
  | search_term :: rest =>
      if (max_products <=? len products)%Z then products
      else
        search_loop search_page rest per_term max_products
          (products ++ _search_amazon_products search_page search_term per_term)
  end.

(** The search terms of a category:
    [self.trending_categories.get(category, ['best sellers'])]. *)
Definition search_terms_of (category : pystr) : list pystr :=
  default [py "best sellers"] (trending_categories !! category).

(** The list [products] when the loop ends. *)
Definition accumulated_products
    (search_page : pystr -> option (list Container))
    (category : pystr) (max_products : Z) : list Product :=
  let search_terms := search_terms_of category in
  search_loop search_page search_terms
    (max_products / len search_terms) max_products [].

(** [get_trending_products(self, category, max_products)]. Every list of
    search terms is a non-empty constant, so the division does not raise
    and the [except] branch is not reached. *)
Definition get_trending_products
    (search_page : pystr -> option (list Container))
    (category : pystr) (max_products : Z) : list Product :=
  let products := accumulated_products search_page category max_products in
  let unique_products := _remove_duplicate_products products in
  slice_to max_products unique_products.

(** ** The per-category automation *)

(** A board dictionary of the boards listing. *)
Record Board := {
  b_id : option pystr;
  b_name : option pystr
}.

(** The dictionary [get_detailed_product_info] returns: the keys whose
    value is not [None]. [features] and [images] are lists, hence always
    present. *)
Record Detail := {
  d_title : option pystr;
  d_price : option pystr;
  d_description : option pystr;
  d_features : list pystr;
  d_images : list pystr;
  d_rating : option pystr;
  d_reviews_count : option pystr;
  d_availability : option pystr;
  d_category : option pystr
}.

(** The pin dictionary of a successful pin creation. *)
Record PinInfo := {
  pi_id : option pystr;
  pi_url : option pystr
}.

(** The outside world during one call of [run_complete_automation]:
    the boards [get_pinterest_boards] returns ([[]] on any failure),
    the search pages, the result of [get_detailed_product_info] for a
    URL ([None] on failure), the truthy result of [create_pinterest_pin]
    ([None] otherwise), and the generator's draw while product number
    [i] is processed. *)
Record Network := {
  boards : list Board;
  search_page : pystr -> option (list Container);
  product_page : pystr -> option Detail;
  pin_response : pystr -> PinContent -> option PinInfo;
  draw : nat -> nat
}.

(** [product.update(detailed_info)]. *)
Definition update (product : Product) (d : Detail) : Product :=
  let over {A} (new old : option A) : option A :=
    match new with Some v => Some v | None => old end in
  {| title := over (d_title d) (title product);
     url := url product;
     asin := asin product;
     price := over (d_price d) (price product);
     image_url := image_url product;
     rating := over (d_rating d) (rating product);
     search_rank := search_rank product;
     description := over (d_description d) (description product);
     features := Some (d_features d);
     images := Some (d_images d);
     reviews_count := over (d_reviews_count d) (reviews_count product);
     availability := over (d_availability d) (availability product);
     category := over (d_category d) (category product) |}.

(** One entry of [results['created_pins']]. *)
Record CreatedPin := {
  product_title : option pystr;
  pin_id : option pystr;
  pin_url : option pystr
}.

(** The [results] dictionary of [run_complete_automation]. *)
Record Results := {
  products_found : Z;
  pins_created : Z;
  errors : Z;
  success_rate : Q;
  created_pins : list CreatedPin
}.

Definition initial_results : Results :=
  {| products_found := 0; pins_created := 0; errors := 0;
     success_rate := 0; created_pins := [] |}.

(** The body of the [try] inside the product loop, up to the pin
    creation: the possibly updated product and the pin result; [None]
    when it raises. *)
Definition process_product (self : Self) (net : Network)
    (category board_id : pystr) (i : nat) (product : Product)
  : option (Product * option PinInfo) :=
  u ← url product;
  let product' :=
    match product_page net u with
    | Some detailed_info => update product detailed_info
    | None => product
    end in
  pin_content ← generate_pin_content self (draw net i) product' category;
  Some (product', pin_response net board_id pin_content).

(** One iteration of the product loop on [results]. The wait between
    posts changes no value. *)
Definition product_step (self : Self) (net : Network)
    (category board_id : pystr) (results : Results)
    (i : nat) (product : Product) : Results :=
  match process_product self net category board_id i product with
  | Some (product', Some pin_result) =>
      {| products_found := products_found results;
         pins_created := pins_created results + 1;
         errors := errors results;
         success_rate := success_rate results;
         created_pins :=
           created_pins results ++
             [{| product_title := title product';
                 pin_id := pi_id pin_result;
                 pin_url := pi_url pin_result |}] |}
  | Some (_, None) | None =>
      {| products_found := products_found results;
         pins_created := pins_created results;
         errors := errors results + 1;
         success_rate := success_rate results;
         created_pins := created_pins results |}
  end.

(** The [for i, product in enumerate(trending_products)] loop, from
    index [i]. *)
Fixpoint product_loop (self : Self) (net : Network)
    (category board_id : pystr) (i : nat) (products : list Product)
    (results : Results) : Results :=
  match products with
  | [] => results
  | product :: rest =>
      product_loop self net category board_id (S i) rest
        (product_step self net category board_id results i product)
  end.

(** The success rate computed after the loop. *)
Definition with_success_rate (results : Results) : Results :=
  let total_attempts := pins_created results + errors results in
  if (0 <? total_attempts)%Z
  then {| products_found := products_found results;
          pins_created := pins_created results;
          errors := errors results;
          success_rate :=
            (inject_Z (pins_created results) / inject_Z total_attempts
             * 100)%Q;
          created_pins := created_pins results |}
  else results.

(** [run_complete_automation(self, category, max_products, board_id,
    post_interval)]. No boards: the initial [results] are returned. A
    first board without [id] or [name] raises [KeyError] inside the outer
    [try], whose handler also returns [results] as they are. *)
Definition run_complete_automation (self : Self) (net : Network)
    (category : pystr) (max_products : Z) (board_id : option pystr)
    (post_interval : Z) : Results :=
  let results := initial_results in
  let resolved : option (option pystr) :=
    if truthy_opt board_id then Some board_id
    else
      match boards net with
      | [] => None
      | b :: _ =>
          match b_id b, b_name b with
          | Some i, Some _ => Some (Some i)
          | _, _ => Some None
          end
      end in
  match resolved with
  | None => results
  | Some None => results
  | Some (Some board_id) =>
      let trending_products :=
        get_trending_products (search_page net) category max_products in
      let results :=
        {| products_found := len trending_products;
           pins_created := 0; errors := 0; success_rate := 0;
           created_pins := [] |} in
      match trending_products with
      | [] => results
      | _ :: _ =>
          with_success_rate
            (product_loop self net category board_id 0 trending_products
               results)
      end
  end.

End Bot.

(* ===================================================================== *)
(** * The job registry and the background task: [main.py]                 *)
(* ===================================================================== *)

Module Main.

(** ** Data *)

(** The values written to a job's ["status"]. *)
Inductive Status := queued | running | completed | failed | cancelled.

(** A job's ["progress"] dictionary: [{"overall_progress": 0}] at
    creation, all four keys once the task has entered its loop.
    [overall_progress] is a Python number (the [int] 0 or 100, or the
    [float] of [completed / total * 100]); it is kept as the rational
    it denotes. *)
Record Progress := {
  current_category : option pystr;
  completed_categories : option Z;
  total_categories : option Z;
  overall_progress : Q
}.

(** One value of [overall_results['category_results']]: the bot's
    results, or [{"error": str(e)}]. *)
Inductive CategoryResult :=
| CategoryResults (results : Bot.Results)
| CategoryError (error : pystr).

(** The [overall_results] dictionary of a task. *)
Record OverallResults := {
  total_products_found : Z;
  total_pins_created : Z;
  total_errors : Z;
  category_results : gmap pystr CategoryResult
}.

(** [AutomationConfigModel]. *)
Record AutomationConfigModel := {
  categories : list pystr;
  max_products_per_category : Z;
  post_interval_seconds : Z;
  daily_pin_limit : Z;
  min_rating : Q;
  min_reviews : Z;
  price_range_min : Z;
  price_range_max : Z
}.

Definition valid_categories : list pystr :=
  [py "electronics"; py "home"; py "fashion"; py "health"; py "books";
   py "sports"].

(** The validator of [categories]. *)
Definition validate_categories (v : list pystr) : outcome (list pystr) :=
  match List.find (fun cat => negb (bool_decide (cat ∈ valid_categories))) v with
  | Some cat => Raise (Exception (py "Invalid category: " ++ cat))
  | None => Ok v
  end.

(** The validator of [max_products_per_category]. *)
Definition validate_max_products (v : Z) : outcome Z :=
  if (v <? 1) || (20 <? v)
  then Raise (Exception (py "Max products per category must be between 1 and 20"))
  else Ok v.

(** The two credentials the task reads from the decrypted JSON. *)
Record Credentials := {
  cr_pinterest_token : pystr;
  cr_amazon_tag : pystr
}.

(** A job dictionary of [active_jobs]. [jid] is its ["id"]. The keys
    ["results"] and ["error"] are absent at creation. ["results"], once
    set, refers to the task's [overall_results] object, which the task
    goes on mutating: it is the address of that object in [objects]. *)
Record Job := {
  jid : pystr;
  status : Status;
  progress : Progress;
  created_at : nat;
  updated_at : nat;
  session_id : pystr;
  config : AutomationConfigModel;
  results : option nat;
  error : option pystr
}.

(** An entry of [encryption_keys]. *)
Record SessionEntry := {
  key : bytes;
  salt : bytes;
  s_created_at : nat
}.

(** The arguments of a call of [run_automation_task] handed to
    [background_tasks.add_task]. *)
Record Task := {
  t_job_id : pystr;
  t_encrypted_credentials : pystr;
  t_config : AutomationConfigModel;
  t_encryption_key : bytes
}.

(** The state of the process: the two global dictionaries, the
    [overall_results] objects of the tasks run so far, the tasks added
    but not yet run, and the clock read by [datetime.now()]. *)
Record World := {
  active_jobs : gmap pystr Job;
  encryption_keys : gmap pystr SessionEntry;
  objects : gmap nat OverallResults;
  background : list Task;
  clock : nat
}.

(** ** Field updates *)

Definition set_status (s : Status) (j : Job) : Job :=
  {| jid := jid j; status := s; progress := progress j;
     created_at := created_at j; updated_at := updated_at j;
     session_id := session_id j; config := config j;
     results := results j; error := error j |}.

Definition set_progress (p : Progress) (j : Job) : Job :=
  {| jid := jid j; status := status j; progress := p;
     created_at := created_at j; updated_at := updated_at j;
     session_id := session_id j; config := config j;
     results := results j; error := error j |}.

Definition set_updated_at (t : nat) (j : Job) : Job :=
  {| jid := jid j; status := status j; progress := progress j;
     created_at := created_at j; updated_at := t;
     session_id := session_id j; config := config j;
     results := results j; error := error j |}.

Definition set_results (r : option nat) (j : Job) : Job :=
  {| jid := jid j; status := status j; progress := progress j;
     created_at := created_at j; updated_at := updated_at j;
     session_id := session_id j; config := config j;
     results := r; error := error j |}.

Definition set_error (e : option pystr) (j : Job) : Job :=
  {| jid := jid j; status := status j; progress := progress j;
     created_at := created_at j; updated_at := updated_at j;
     session_id := session_id j; config := config j;
     results := results j; error := e |}.

Definition set_overall_progress (q : Q) (p : Progress) : Progress :=
  {| current_category := current_category p;
     completed_categories := completed_categories p;
     total_categories := total_categories p;
     overall_progress := q |}.

Definition with_active_jobs (f : gmap pystr Job -> gmap pystr Job)
    (w : World) : World :=
  {| active_jobs := f (active_jobs w);
     encryption_keys := encryption_keys w;
     objects := objects w; background := background w;
     clock := clock w |}.

Definition with_encryption_keys
    (f : gmap pystr SessionEntry -> gmap pystr SessionEntry)
    (w : World) : World :=
  {| active_jobs := active_jobs w;
     encryption_keys := f (encryption_keys w);
     objects := objects w; background := background w;
     clock := clock w |}.

Definition with_objects
    (f : gmap nat OverallResults -> gmap nat OverallResults)
    (w : World) : World :=
  {| active_jobs := active_jobs w;
     encryption_keys := encryption_keys w;
     objects := f (objects w); background := background w;
     clock := clock w |}.

Definition with_background (f : list Task -> list Task) (w : World)
  : World :=
  {| active_jobs := active_jobs w;
     encryption_keys := encryption_keys w;
     objects := objects w; background := f (background w);
     clock := clock w |}.

Definition tick (w : World) : World :=
  {| active_jobs := active_jobs w;
     encryption_keys := encryption_keys w;
     objects := objects w; background := background w;
     clock := S (clock w) |}.

Definition add_found (n : Z) (o : OverallResults) : OverallResults :=
  {| total_products_found := total_products_found o + n;
     total_pins_created := total_pins_created o;
     total_errors := total_errors o;
     category_results := category_results o |}.

Definition add_pins (n : Z) (o : OverallResults) : OverallResults :=
  {| total_products_found := total_products_found o;
     total_pins_created := total_pins_created o + n;
     total_errors := total_errors o;
     category_results := category_results o |}.

Definition add_errors (n : Z) (o : OverallResults) : OverallResults :=
  {| total_products_found := total_products_found o;
     total_pins_created := total_pins_created o;
     total_errors := total_errors o + n;
     category_results := category_results o |}.

Definition set_category_result (category : pystr) (r : CategoryResult)
    (o : OverallResults) : OverallResults :=
  {| total_products_found := total_products_found o;
     total_pins_created := total_pins_created o;
     total_errors := total_errors o;
     category_results := <[category := r]> (category_results o) |}.

(** ** The monad of the handlers and of the task

    A computation runs from a state of the process to a value or a
    raised exception, the state it leaves, and the states after each of
    its writes to the process state, in order. A raised exception leaves
    the writes made before it in place. *)
Definition M (A : Type) : Type := World -> outcome A * World * list World.

Definition ret {A : Type} (a : A) : M A := fun w => (Ok a, w, []).

Definition raise {A : Type} (e : exn) : M A := fun w => (Raise e, w, []).

Definition bind {A B : Type} (m : M A) (k : A -> M B) : M B :=
  fun w =>
    match m w with
    | (Ok a, w1, t1) =>
        match k a w1 with
        | (r, w2, t2) => (r, w2, t1 ++ t2)
        end
    | (Raise e, w1, t1) => (Raise e, w1, t1)
    end.

(** [try: m] with the outcome handed to the code after it. *)
Definition attempt {A : Type} (m : M A) : M (outcome A) :=
  fun w => match m w with (r, w1, t1) => (Ok r, w1, t1) end.

Definition lift {A : Type} (o : outcome A) : M A := fun w => (o, w, []).

Definition get : M World := fun w => (Ok w, w, []).

(** A write to the process state. *)
Definition write (f : World -> World) : M unit :=
  fun w => (Ok tt, f w, [f w]).

(** [datetime.now()]. *)
Definition now : M nat := fun w => (Ok (clock w), tick w, []).

Declare Scope task_scope.
Delimit Scope task_scope with task.
Notation "x <- m ;; k" := (bind m (fun x => k))
  (at level 100, m at next level, right associativity) : task_scope.
Notation "m ;; k" := (bind m (fun _ => k))
  (at level 100, right associativity) : task_scope.

Local Open Scope task_scope.

(** [active_jobs[job_id][k] = v]: [KeyError] when the job is absent. *)
Definition job_write (job_id : pystr) (f : Job -> Job) : M unit :=
  w <- get;;
  match active_jobs w !! job_id with
  | Some job => write (with_active_jobs (insert job_id (f job)))
  | None => raise (KeyError job_id)
  end.

(** A new dictionary object: its address. *)
Definition alloc (o : OverallResults) : M nat :=
  w <- get;;
  let l := fresh (dom (objects w)) in
  write (with_objects (insert l o));;
  ret l.

(** An update in place of the object at [l]. *)
Definition obj_write (l : nat) (f : OverallResults -> OverallResults)
  : M unit :=
  write (with_objects (alter f l)).

(** ** The background task *)

(** What the task works with besides the process state: the library
    functions of [EncryptionManager]; [json.dumps] of the credentials
    dictionary; [json.loads] followed by the two key lookups; the
    constructor of the bot; and [bot.run_complete_automation(category,
    max_products, post_interval)], whose first argument here numbers the
    calls the task makes (0 for the first category of the list, and so
    on): the bot talks to the network, so two calls need not agree. *)
Record Collaborators := {
  crypto : Vault.Primitives;
  json_dumps : Credentials -> pystr;
  json_loads : pystr -> outcome Credentials;
  new_bot : pystr -> pystr -> outcome Bot.Self;
  bot_run_complete_automation :
    nat -> Bot.Self -> pystr -> Z -> Z -> outcome Bot.Results
}.

(** The bot of [trending_amazon_pinterest_bot.py] as the task's bot, the
    network during call [i] being [nets i]. The task passes no
    [board_id]. *)
Definition bot_on (nets : nat -> Bot.Network)
  : nat -> Bot.Self -> pystr -> Z -> Z -> outcome Bot.Results :=
  fun i self category max_products post_interval =>
    Ok (Bot.run_complete_automation self (nets i) category max_products
          None post_interval).

Section Task.

Variable E : Collaborators.

(** The body of the inner [try] up to, and without,
    [completed_categories += 1]. *)
Definition category_try_first (job_id : pystr)
    (config : AutomationConfigModel) (bot : Bot.Self)
    (overall_results : nat) (total_categories : Z)
    (i : nat) (category : pystr) (completed_categories : Z) : M unit :=
  percent <-
    (if (total_categories =? 0)%Z then raise ZeroDivisionError
     else ret (inject_Z completed_categories / inject_Z total_categories
               * 100)%Q);;
  job_write job_id
    (set_progress
       {| current_category := Some category;
          completed_categories := Some completed_categories;
          total_categories := Some total_categories;
          overall_progress := percent |});;
  results <-
    lift (bot_run_complete_automation E i bot category
            (max_products_per_category config)
            (post_interval_seconds config));;
  obj_write overall_results (add_found (Bot.products_found results));;
  obj_write overall_results (add_pins (Bot.pins_created results));;
  obj_write overall_results (add_errors (Bot.errors results));;
  obj_write overall_results
    (set_category_result category (CategoryResults results)).

(** The rest of the inner [try], after
    [completed_categories += 1]. *)
Definition category_try_rest (job_id : pystr) (overall_results : nat)
  : M unit :=
  job_write job_id (set_results (Some overall_results));;
  t <- now;;
  job_write job_id (set_updated_at t).

(** The inner [except Exception as e]. *)
Definition category_except (overall_results : nat) (category : pystr)
    (e : exn) : M unit :=
  obj_write overall_results (add_errors 1);;
  obj_write overall_results
    (set_category_result category (CategoryError (str_of_exn e))).

(** The [for category in config.categories] loop from call number [i]
    on, returning [completed_categories]. The inner [try] is cut at its
    only assignment to a local variable, [completed_categories += 1],
    so that an exception raised after it finds the variable
    incremented. *)
Fixpoint category_loop (job_id : pystr) (config : AutomationConfigModel)
    (bot : Bot.Self) (overall_results : nat) (total_categories : Z)
    (i : nat) (cats : list pystr) (completed_categories : Z) : M Z :=
  match cats with
  | [] => ret completed_categories
  | category :: rest =>
      r <- attempt (category_try_first job_id config bot overall_results
                      total_categories i category completed_categories);;
      match r with
      | Raise e =>
          category_except overall_results category e;;
          category_loop job_id config bot overall_results
            total_categories (S i) rest completed_categories
      | Ok _ =>
          let completed_categories := (completed_categories + 1)%Z in
          r' <- attempt (category_try_rest job_id overall_results);;
          match r' with
          | Raise e => category_except overall_results category e
          | Ok _ => ret tt
          end;;
          category_loop job_id config bot overall_results
            total_categories (S i) rest completed_categories
      end
  end.

(** The body of the outer [try]. *)
Definition task_try (job_id : pystr) (encrypted_credentials : pystr)
    (config : AutomationConfigModel) (encryption_key : bytes) : M unit :=
  job_write job_id (set_status running);;
  t <- now;;
  job_write job_id (set_updated_at t);;
  credentials_json <-
    lift (Vault.decrypt_data (crypto E) encrypted_credentials
            encryption_key);;
  credentials <- lift (json_loads E credentials_json);;
  bot <- lift (new_bot E (cr_pinterest_token credentials)
                 (cr_amazon_tag credentials));;
  let total_categories := len (categories config) in
  overall_results <-
    alloc {| total_products_found := 0; total_pins_created := 0;
             total_errors := 0; category_results := ∅ |};;
  category_loop job_id config bot overall_results total_categories
    0 (categories config) 0;;
  job_write job_id (set_status completed);;
  job_write job_id (set_results (Some overall_results));;
  job_write job_id
    (fun j => set_progress (set_overall_progress 100 (progress j)) j);;
  t <- now;;
  job_write job_id (set_updated_at t).

(** The outer [except Exception as e]. *)
Definition task_except (job_id : pystr) (e : exn) : M unit :=
  job_write job_id (set_status failed);;
  job_write job_id (set_error (Some (str_of_exn e)));;
  t <- now;;
  job_write job_id (set_updated_at t).

(** [run_automation_task(job_id, encrypted_credentials, config,
    encryption_key)]. The function awaits nothing: once started it runs
    to its end before any request handler runs. *)
Definition run_automation_task (job_id : pystr)
    (encrypted_credentials : pystr) (config : AutomationConfigModel)
    (encryption_key : bytes) : M unit :=
  r <- attempt (task_try job_id encrypted_credentials config
                  encryption_key);;
  match r with
  | Ok _ => ret tt
  | Raise e => task_except job_id e
  end.

(** ** The routes *)

(** [verify_session]. *)
Definition verify_session (session : pystr) : M pystr :=
  w <- get;;
  match encryption_keys w !! session with
  | Some _ => ret session
  | None => raise (HTTPException 401 (py "Invalid session"))
  end.

(** The request body of [/api/start-automation], validated. *)
Record AutomationRequestModel := {
  rq_pinterest_token : pystr;
  rq_amazon_tag : pystr;
  rq_session_password : pystr;
  rq_config : AutomationConfigModel
}.

(** [start_automation]. [job_id] is the fresh [uuid4]; [enc_now] and
    [iv] are the time and the random bytes the encryption uses. The
    answer is the job id and status. *)
Definition start_automation (request : AutomationRequestModel)
    (session : pystr) (job_id : pystr) (enc_now : Z) (iv : bytes)
  : M (pystr * Status) :=
  session <- verify_session session;;
  r <- attempt (
    w <- get;;
    match encryption_keys w !! session with
    | None => raise (HTTPException 401 (py "Invalid session"))
    | Some entry =>
        let encryption_key := key entry in
        let credentials_dict :=
          {| cr_pinterest_token := rq_pinterest_token request;
             cr_amazon_tag := rq_amazon_tag request |} in
        encrypted_credentials <-
          lift (Vault.encrypt_data (crypto E) enc_now iv
                  (json_dumps E credentials_dict) encryption_key);;
        t1 <- now;;
        t2 <- now;;
        write (with_active_jobs (insert job_id
          {| jid := job_id; status := queued;
             progress :=
               {| current_category := None;
                  completed_categories := None;
                  total_categories := None;
                  overall_progress := 0 |};
             created_at := t1; updated_at := t2;
             session_id := session; config := rq_config request;
             results := None; error := None |}));;
        write (with_background (fun tasks => tasks ++
          [{| t_job_id := job_id;
              t_encrypted_credentials := encrypted_credentials;
              t_config := rq_config request;
              t_encryption_key := encryption_key |}]));;
        ret (job_id, queued)
    end);;
  match r with
  | Ok v => ret v
  | Raise _ =>
      raise (HTTPException 500 (py "Failed to start automation"))
  end.

(** The next task added by [add_task] is run. *)
Definition run_background : M unit :=
  w <- get;;
  match background w with
  | [] => ret tt
  | t :: rest =>
      write (with_background (fun _ => rest));;
      run_automation_task (t_job_id t) (t_encrypted_credentials t)
        (t_config t) (t_encryption_key t)
  end.

(** [cancel_job]. *)
Definition cancel_job (job_id : pystr) (session : pystr) : M pystr :=
  session <- verify_session session;;
  w <- get;;
  match active_jobs w !! job_id with
  | None => raise (HTTPException 404 (py "Job not found"))
  | Some job =>
      if bool_decide (session_id job = session)
      then
        job_write job_id (set_status cancelled);;
        t <- now;;
        job_write job_id (set_updated_at t);;
        ret (py "Job cancelled successfully")
      else raise (HTTPException 403 (py "Access denied"))
  end.

(** The body of the loop of [end_session] for one job of the
    dictionary. *)
Definition end_session_job (session : pystr) (job_id : pystr) : M unit :=
  w <- get;;
  match active_jobs w !! job_id with
  | None => raise (KeyError job_id)
  | Some job =>
      if bool_decide (session_id job = session)
         && match status job with
            | queued | running => true
            | _ => false
            end
      then
        job_write job_id (set_status cancelled);;
        t <- now;;
        job_write job_id (set_updated_at t)
      else ret tt
  end.

Fixpoint end_session_loop (session : pystr) (job_ids : list pystr)
  : M unit :=
  match job_ids with
  | [] => ret tt
  | job_id :: rest =>
      end_session_job session job_id;;
      end_session_loop session rest
  end.

(** [end_session]. The jobs are visited in the order of the keys of
    the map, where the source follows the insertion order of the
    dictionary; the jobs are updated independently of each other. *)
Definition end_session (session : pystr) : M pystr :=
  session <- verify_session session;;
  r <- attempt (
    write (with_encryption_keys (delete session));;
    w <- get;;
    end_session_loop session (map fst (map_to_list (active_jobs w))));;
  match r with
  | Ok _ => ret (py "Session ended successfully")
  | Raise _ => raise (HTTPException 500 (py "Failed to end session"))
  end.

End Task.

End Main.

(* ===================================================================== *)
(** * Test doubles and scenarios                                          *)
(* ===================================================================== *)

Module Scenario.

Import Main.

(** A stand-in for the library functions, enough to run the code: the
    codec maps code points below 256 to bytes, base64 is the identity,
    the derived key is 32 zero bytes, and the cipher accepts keys of 32
    bytes and leaves the data as it is. *)
Definition plain_encode (s : pystr) : outcome bytes :=
  match mapM Byte.of_N s with
  | Some b => Ok b
  | None => Raise (Exception (py "codec can't encode character"))
  end.

Definition plain_primitives : Vault.Primitives :=
  {| Vault.str_encode := plain_encode;
     Vault.bytes_decode := fun b => Ok (map Byte.to_N b);
     Vault.urlsafe_b64encode := fun b => b;
     Vault.urlsafe_b64decode := fun b => Ok b;
     Vault.pbkdf2 := fun _ _ => replicate 32 x00;
     Vault.fernet_new := fun k =>
       if bool_decide (length k = 32%nat) then Ok tt
       else Raise (Exception (py "Fernet key must be 32 url-safe base64-encoded bytes."));
     Vault.fernet_encrypt := fun _ _ _ d => Ok d;
     Vault.fernet_decrypt := fun _ t => Ok t |}.

(** A network without boards, search results, product pages or pins. *)
Definition no_boards : Bot.Network :=
  {| Bot.boards := [];
     Bot.search_page := fun _ => Some [];
     Bot.product_page := fun _ => None;
     Bot.pin_response := fun _ _ => None;
     Bot.draw := fun _ => 0%nat |}.

(** Collaborators for a run: the stand-in library, credentials written as
    [token,tag], and the repository's bot on the networks [nets]. *)
Definition collaborators (nets : nat -> Bot.Network) : Collaborators :=
  {| crypto := plain_primitives;
     json_dumps := fun c =>
       cr_pinterest_token c ++ py "," ++ cr_amazon_tag c;
     json_loads := fun s =>
       match split (py ",") s with
       | [a; b] => Ok {| cr_pinterest_token := a; cr_amazon_tag := b |}
       | _ => Raise (Exception (py "Expecting value"))
       end;
     new_bot := fun token tag =>
       Ok {| Bot.pinterest_token := token; Bot.amazon_tag := tag |};
     bot_run_complete_automation := bot_on nets |}.

(** Collaborators whose bot is a mock answering call [i] with
    [answers i]. *)
Definition collaborators_mock (answers : nat -> outcome Bot.Results)
  : Collaborators :=
  {| crypto := plain_primitives;
     json_dumps := json_dumps (collaborators (fun _ => no_boards));
     json_loads := json_loads (collaborators (fun _ => no_boards));
     new_bot := new_bot (collaborators (fun _ => no_boards));
     bot_run_complete_automation := fun i _ _ _ _ => answers i |}.

Definition the_config (cats : list pystr) : AutomationConfigModel :=
  {| categories := cats;
     max_products_per_category := 5;
     post_interval_seconds := 300;
     daily_pin_limit := 50;
     min_rating := 4;
     min_reviews := 10;
     price_range_min := 5;
     price_range_max := 500 |}.

Definition the_request (cats : list pystr) : AutomationRequestModel :=
  {| rq_pinterest_token := py "pinterest-token";
     rq_amazon_tag := py "tag123";
     rq_session_password := py "secret";
     rq_config := the_config cats |}.

(** A process with one open session and no job. *)
Definition one_session : World :=
  {| active_jobs := ∅;
     encryption_keys :=
       {[ py "session-1" :=
            {| key := replicate 32 x00; salt := replicate 16 x00;
               s_created_at := 0 |} ]};
     objects := ∅;
     background := [];
     clock := 1 |}.

(** The state a computation leaves, and the status of a job in a
    state. *)
Definition state_after {A : Type} (x : outcome A * World * list World)
  : World := x.1.2.

Definition writes_of {A : Type} (x : outcome A * World * list World)
  : list World := x.2.

Definition status_in (w : World) (job_id : pystr) : option Status :=
  status <$> active_jobs w !! job_id.

(** The results a status read shows for a job: the object its
    ["results"] refers to. *)
Definition results_in (w : World) (job_id : pystr) : option OverallResults :=
  job ← active_jobs w !! job_id;
  l ← results job;
  objects w !! l.

(** A job is submitted in the session. *)
Definition submitted (E : Collaborators) (cats : list pystr) : World :=
  state_after
    (start_automation E (the_request cats) (py "session-1") (py "job-1")
       0 [] one_session).

End Scenario.

(* ===================================================================== *)
(** * Vocabulary of the statements about the task                         *)
(* ===================================================================== *)

Module Logic.

Import Main.

Local Open Scope outcome_scope.

(** The bot the task builds from the encrypted credentials, or the
    exception that makes the job fail. *)
Definition prepared_bot (E : Collaborators) (encrypted_credentials : pystr)
    (encryption_key : bytes) : outcome Bot.Self :=
  credentials_json <~
    Vault.decrypt_data (crypto E) encrypted_credentials encryption_key;
  credentials <~ json_loads E credentials_json;
  new_bot E (cr_pinterest_token credentials) (cr_amazon_tag credentials).

(** The answer of the bot to the call for the category at position [i]
    of the configured list. *)
Definition answer (E : Collaborators) (config : AutomationConfigModel)
    (bot : Bot.Self) (i : nat) (category : pystr) : outcome Bot.Results :=
  bot_run_complete_automation E i bot category
    (max_products_per_category config) (post_interval_seconds config).

(** The answers to all the calls of a run, in the order of the
    configured categories. *)
Definition answers (E : Collaborators) (config : AutomationConfigModel)
    (bot : Bot.Self) : list (outcome Bot.Results) :=
  imap (answer E config bot) (categories config).

(** What one answer adds to each aggregate count. *)
Definition counted_errors (r : outcome Bot.Results) : Z :=
  match r with Ok res => Bot.errors res | Raise _ => 1 end.

Definition counted_products (r : outcome Bot.Results) : Z :=
  match r with Ok res => Bot.products_found res | Raise _ => 0 end.

Definition counted_pins (r : outcome Bot.Results) : Z :=
  match r with Ok res => Bot.pins_created res | Raise _ => 0 end.

Definition Zsum (l : list Z) : Z := foldr Z.add 0 l.

(** The effect of one answer on [overall_results]. *)
Definition record_answer (category : pystr) (r : outcome Bot.Results)
    (o : OverallResults) : OverallResults :=
  match r with
  | Ok res =>
      set_category_result category (CategoryResults res)
        (add_errors (Bot.errors res)
           (add_pins (Bot.pins_created res)
              (add_found (Bot.products_found res) o)))
  | Raise e =>
      set_category_result category (CategoryError (str_of_exn e))
        (add_errors 1 o)
  end.

(** [overall_results] after the categories [cats], the first of which is
    at position [i]. *)
Fixpoint aggregate (E : Collaborators) (config : AutomationConfigModel)
    (bot : Bot.Self) (i : nat) (cats : list pystr) (o : OverallResults)
  : OverallResults :=
  match cats with
  | [] => o
  | category :: rest =>
      aggregate E config bot (S i) rest
        (record_answer category (answer E config bot i category) o)
  end.

Definition percent (job : Job) : Q := overall_progress (progress job).

Section Paths.

(** The order in which percentages are compared: [Qle] for the
    statements about progress, the full relation for those that do
    not look at it. *)
Variable le : Q -> Q -> Prop.

(** From [w1] to [w2] the job [job_id] stays and its percentage does
    not go down in the order [le]. *)
Definition advances (job_id : pystr) (w1 w2 : World) : Prop :=
  forall job1, active_jobs w1 !! job_id = Some job1 ->
    exists job2, active_jobs w2 !! job_id = Some job2
                 /\ le (percent job1) (percent job2).

(** Every state of [w], [tr], [w'] advances to the next. *)
Fixpoint path (job_id : pystr) (w : World) (tr : list World)
    (w' : World) : Prop :=
  match tr with
  | [] => advances job_id w w'
  | x :: tr' => advances job_id w x /\ path job_id x tr' w'
  end.

(** Run from [w], the computation [m] ends in an outcome and a state
    satisfying [Q], and every write on the way advances. *)
Definition wp (job_id : pystr) {A : Type} (m : M A)
    (Q : outcome A -> World -> Prop) (w : World) : Prop :=
  match m w with
  | (r, w', tr) => Q r w' /\ path job_id w tr w'
  end.

End Paths.

(** The order that compares nothing. *)
Definition any_order : Q -> Q -> Prop := fun _ _ => True.

End Logic.

(* ===================================================================== *)
(** * Vocabulary of the statements about the bot                          *)
(* ===================================================================== *)

Module BotLogic.

(** A product has the three fields the search extractor requires: a
    non-empty title, URL and ASIN. *)
Definition has_mandatory_fields (p : Bot.Product) : Prop :=
  exists t u a,
    Bot.title p = Some t /\ t <> []
    /\ Bot.url p = Some u /\ u <> []
    /\ Bot.asin p = Some a /\ a <> [].



End BotLogic.

(* ===================================================================== *)
(** * The detail page extractors of the bot                               *)
(* ===================================================================== *)

Module DetailPage.

(** What the selectors find on a product page: for the title and the
    price, the stripped text of the element of each selector in the order
    of the source ([None] without an element); the stripped texts of the
    elements [#feature-bullets li]; the text of [#productDescription p];
    the [src] of [#landingImage] and of each [.a-dynamic-image] ([None]
    without the attribute); the texts of [.a-icon-alt],
    [#acrCustomerReviewText] and [#availability span]; the texts of the
    breadcrumb links. *)
Record Page := {
  pg_titles : list (option pystr);
  pg_prices : list (option pystr);
  pg_bullets : list pystr;
  pg_description : option pystr;
  pg_main_image : option pystr;
  pg_alt_images : list (option pystr);
  pg_rating : option pystr;
  pg_reviews : option pystr;
  pg_availability : option pystr;
  pg_breadcrumbs : list pystr
}.

(** [_get_detailed_title]: the text of the first selector with an
    element. *)
Fixpoint _get_detailed_title (texts : list (option pystr)) : option pystr :=
  match texts with
  | [] => None
  | Some text :: _ => Some text
  | None :: rest => _get_detailed_title rest
  end.

(** [_get_detailed_price]: the first text that holds ['$']. *)
Fixpoint _get_detailed_price (texts : list (option pystr)) : option pystr :=
  match texts with
  | [] => None
  | Some price :: rest =>
      if contains (py "$") price then Some price
      else _get_detailed_price rest
  | None :: rest => _get_detailed_price rest
  end.

(** The test on the text of a bullet:
    [text and len(text) > 15 and not text.startswith('Make sure')]. *)
Definition is_feature_text (text : pystr) : bool :=
  truthy text && (15 <? len text) && negb (starts_with (py "Make sure") text).

(** [_get_detailed_description]. *)
Definition _get_detailed_description (bullets : list pystr)
    (product_description : option pystr) : option pystr :=
  match List.filter is_feature_text (take 3 bullets) with
  | d :: ds => Some (join (py " ") (d :: ds))
  | [] =>
      match product_description with
      | Some text => Some (take 200 text)
      | None => None
      end
  end.

(** [_get_detailed_features]. *)
Definition _get_detailed_features (bullets : list pystr) : list pystr :=
  take 5 (List.filter is_feature_text bullets).

(** The loop of [_get_detailed_images] over the alternative images. *)
Fixpoint add_images (images : list pystr) (srcs : list (option pystr))
  : list pystr :=
  match srcs with
  | [] => images
  | Some src :: rest =>
      if truthy src && bool_decide (src ∉ images)
      then add_images (images ++ [src]) rest
      else add_images images rest
  | None :: rest => add_images images rest
  end.

(** [_get_detailed_images]. *)
Definition _get_detailed_images (main_src : option pystr)
    (alt_srcs : list (option pystr)) : list pystr :=
  let images :=
    match main_src with
    | Some src => if truthy src then [src] else []
    | None => []
    end in
  take 3 (add_images images alt_srcs).

(** [_get_detailed_rating]. *)
Definition _get_detailed_rating (text : option pystr) : option pystr :=
  match text with
  | Some rating => if contains (py "out of 5") rating then Some rating else None
  | None => None
  end.

(** [_get_detailed_category]. *)
Definition _get_detailed_category (breadcrumbs : list pystr) : option pystr :=
  match breadcrumbs with
  | [] => None
  | _ :: _ => Some (join (py " > ") breadcrumbs)
  end.

(** [get_detailed_product_info]: [None] when the request or the parsing
    raises ([page = None]); otherwise the dictionary of the extracted
    values that are not [None]. *)
Definition get_detailed_product_info (page : option Page)
  : option Bot.Detail :=
  match page with
  | None => None
  | Some pg =>
      Some {| Bot.d_title := _get_detailed_title (pg_titles pg);
              Bot.d_price := _get_detailed_price (pg_prices pg);
              Bot.d_description :=
                _get_detailed_description (pg_bullets pg) (pg_description pg);
              Bot.d_features := _get_detailed_features (pg_bullets pg);
              Bot.d_images :=
                _get_detailed_images (pg_main_image pg) (pg_alt_images pg);
              Bot.d_rating := _get_detailed_rating (pg_rating pg);
              Bot.d_reviews_count := pg_reviews pg;
              Bot.d_availability := pg_availability pg;
              Bot.d_category := _get_detailed_category (pg_breadcrumbs pg) |}
  end.

End DetailPage.

(* ===================================================================== *)
(** * The status routes of [main.py]                                      *)
(* ===================================================================== *)

Module Reads.

Import Main.

Local Open Scope task_scope.

(** A value of a job dictionary. *)
Inductive Value :=
| VStr (s : pystr)
| VStatus (s : Status)
| VProgress (p : Progress)
| VTime (t : nat)
| VConfig (c : AutomationConfigModel)
| VResults (l : nat).

(** A job as the dictionary it is: the seven keys written at creation
    (the job's id under the key ["id"]), and ["results"] and ["error"]
    once they are set. *)
Definition job_dict (job : Job) : gmap pystr Value :=
  list_to_map
    ([(py "id", VStr (jid job));
      (py "status", VStatus (status job));
      (py "progress", VProgress (progress job));
      (py "created_at", VTime (created_at job));
      (py "updated_at", VTime (updated_at job));
      (py "session_id", VStr (session_id job));
      (py "config", VConfig (config job))]
     ++ match results job with
        | Some l => [(py "results", VResults l)]
        | None => []
        end
     ++ match error job with
        | Some e => [(py "error", VStr e)]
        | None => []
        end).

(** [JobStatusModel]: its fields. *)
Record JobStatus := {
  js_job_id : pystr;
  js_status : Status;
  js_progress : Progress;
  js_created_at : nat;
  js_updated_at : nat;
  js_results : option nat;
  js_error : option pystr
}.

(** The construction of a [JobStatusModel] from a dictionary unpacked
    into keyword arguments: the five fields without a default are
    required, [results] and [error] default to [None], other
    keys are ignored; a missing or ill-typed field is a validation
    error. *)
Definition JobStatusModel (kwargs : gmap pystr Value) : outcome JobStatus :=
  match kwargs !! py "job_id", kwargs !! py "status",
        kwargs !! py "progress", kwargs !! py "created_at",
        kwargs !! py "updated_at" with
  | Some (VStr j), Some (VStatus s), Some (VProgress p),
    Some (VTime c), Some (VTime u) =>
      match kwargs !! py "results", kwargs !! py "error" with
      | Some (VResults l), Some (VStr e) =>
          Ok {| js_job_id := j; js_status := s; js_progress := p;
                js_created_at := c; js_updated_at := u;
                js_results := Some l; js_error := Some e |}
      | Some (VResults l), None =>
          Ok {| js_job_id := j; js_status := s; js_progress := p;
                js_created_at := c; js_updated_at := u;
                js_results := Some l; js_error := None |}
      | None, Some (VStr e) =>
          Ok {| js_job_id := j; js_status := s; js_progress := p;
                js_created_at := c; js_updated_at := u;
                js_results := None; js_error := Some e |}
      | None, None =>
          Ok {| js_job_id := j; js_status := s; js_progress := p;
                js_created_at := c; js_updated_at := u;
                js_results := None; js_error := None |}
      | _, _ => Raise (Exception (py "validation error for JobStatusModel"))
      end
  | _, _, _, _, _ =>
      Raise (Exception (py "validation error for JobStatusModel"))
  end.

(** [get_job_status]. *)
Definition get_job_status (job_id : pystr) (session : pystr)
  : M JobStatus :=
  session <- verify_session session;;
  w <- get;;
  match active_jobs w !! job_id with
  | None => raise (HTTPException 404 (py "Job not found"))
  | Some job =>
      if bool_decide (session_id job = session)
      then lift (JobStatusModel (job_dict job))
      else raise (HTTPException 403 (py "Access denied"))
  end.

(** The loop of [get_user_jobs] over the jobs of the dictionary. *)
Fixpoint user_jobs_loop (session : pystr) (jobs : list (pystr * Job))
    (user_jobs : list JobStatus) : outcome (list JobStatus) :=
  match jobs with
  | [] => Ok user_jobs
  | (_, job) :: rest =>
      if bool_decide (session_id job = session)
      then
        match JobStatusModel (job_dict job) with
        | Ok model => user_jobs_loop session rest (user_jobs ++ [model])
        | Raise e => Raise e
        end
      else user_jobs_loop session rest user_jobs
  end.

(** [get_user_jobs]. The jobs are visited in the order of the keys of the
    map, where the source follows the insertion order of the
    dictionary. *)
Definition get_user_jobs (session : pystr) : M (list JobStatus) :=
  session <- verify_session session;;
  w <- get;;
  lift (user_jobs_loop session (map_to_list (active_jobs w)) []).

End Reads.

(* ===================================================================== *)
(** * Vocabulary of the statements about what a computation leaves alone  *)
(* ===================================================================== *)

Module Frame.

Import Main.

(** Run from any state [w], the computation [m] leaves a state, and
    writes states on the way, that are all related to [w] by [R]. *)
Definition keeps (R : World -> World -> Prop) {A : Type} (m : M A) : Prop :=
  forall w,
    match m w with
    | (_, w', tr) => R w w' /\ Forall (R w) tr
    end.

(** [w'] has the sessions, the queue of tasks and the jobs other than
    [job_id] that [w] has. *)
Definition same_elsewhere (job_id : pystr) (w w' : World) : Prop :=
  encryption_keys w' = encryption_keys w
  /\ background w' = background w
  /\ forall j, j <> job_id -> active_jobs w' !! j = active_jobs w !! j.

(** A job is terminal. *)
Definition terminal (s : Status) : bool :=
  match s with
  | completed | failed | cancelled => true
  | queued | running => false
  end.

(** The job a cancellation at the time [t] makes of [job]. *)
Definition cancelled_at (t : nat) (job : Job) : Job :=
  set_updated_at t (set_status cancelled job).

End Frame.


(* ===================================================================== *)
(** * Properties of the bot                                               *)
(* ===================================================================== *)

Section BotFacts.

Import Bot.

Lemma slice_to_nonneg {A : Type} (n : Z) (l : list A) :
  0 <= n -> slice_to n l = take (Z.to_nat n) l.
Proof.
  intros Hn. unfold slice_to.
  destruct (Z.leb_spec 0 n) as [_|Hlt]; [reflexivity | lia].
Qed.


Lemma slice_to_zero {A : Type} (l : list A) : slice_to 0 l = [].
Proof. reflexivity. Qed.

(** What [remove_duplicates_from] keeps: products with a non-empty ASIN
    outside [seen_asins], each the first of the input with its ASIN, no
    ASIN twice, in the order of the input. *)
Lemma remove_duplicates_from_spec (products : list Product) :
  forall seen_asins : gset pystr,
    let kept := remove_duplicates_from seen_asins products in
    sublist kept products
    /\ NoDup (map asin kept)
    /\ forall p, p ∈ kept ->
         exists a, asin p = Some a /\ a <> [] /\ (a ∉ seen_asins)
           /\ List.find (fun q => bool_decide (asin q = asin p)) products
              = Some p.
Proof.
  induction products as [|product rest IH]; intros seen; simpl.
  - split; [constructor|]. split; [constructor|].
    intros p Hp. inversion Hp.
  - assert (Hskip :
      forall seen', (forall a, asin product = Some a -> a = [] \/ a ∈ seen') ->
        seen' = seen ->
        let kept := remove_duplicates_from seen' rest in
        sublist kept (product :: rest)
        /\ NoDup (map asin kept)
        /\ forall p, p ∈ kept ->
             exists a, asin p = Some a /\ a <> [] /\ (a ∉ seen)
               /\ (if bool_decide (asin product = asin p) then Some product
                   else List.find (fun q => bool_decide (asin q = asin p)) rest)
                  = Some p).
    { intros seen' Hhead ->.
      destruct (IH seen) as (Hsub & Hnd & Hfirst).
      split; [by apply sublist_cons|]. split; [exact Hnd|].
      intros p Hp. destruct (Hfirst p Hp) as (a & Ha & Hne & Hns & Hfind).
      exists a. repeat split; try assumption.
      case_bool_decide as Heq; [|exact Hfind].
      rewrite Ha in Heq. destruct (Hhead a Heq) as [->|Hin]; contradiction. }
    destruct (asin product) as [a|] eqn:Hasin.
    + destruct (truthy a && bool_decide (a ∉ seen)) eqn:Hcond.
      * apply andb_true_iff in Hcond as [Htruthy Hfresh].
        apply bool_decide_eq_true in Hfresh.
        destruct (IH ({[a]} ∪ seen)) as (Hsub & Hnd & Hfirst).
        split; [by apply sublist_skip|]. split.
        { simpl. constructor; [|exact Hnd].
          intros Hin.
          apply list_elem_of_fmap in Hin as (q & Hq & Hqin).
          destruct (Hfirst q Hqin) as (a' & Ha' & _ & Hns & _).
          assert (a' = a) as -> by congruence.
          apply Hns, elem_of_union_l, elem_of_singleton. reflexivity. }
        intros p Hp. apply elem_of_cons in Hp as [->|Hp].
        { exists a. repeat split; try assumption.
          - intros ->. discriminate.
          - by rewrite bool_decide_eq_true_2. }
        destruct (Hfirst p Hp) as (a' & Ha' & Hne & Hns & Hfind).
        exists a'. repeat split; try assumption.
        { intros Hin. apply Hns, elem_of_union_r, Hin. }
        rewrite bool_decide_eq_false_2; [exact Hfind|].
        intros Heq. assert (a' = a) as -> by congruence.
        apply Hns, elem_of_union_l, elem_of_singleton. reflexivity.
      * apply (Hskip seen); [|reflexivity].
        intros a' [= <-]. apply andb_false_iff in Hcond as [Ht|Hd].
        { left. by destruct a. }
        right. apply bool_decide_eq_false in Hd.
        by destruct (decide (a ∈ seen)).
    + apply (Hskip seen); [|reflexivity]. intros a' [=].
Qed.

(** The string functions on the inputs of the source's idioms. *)
Example split_on_marker :
  split (py "/dp/") (py "https://x/dp/B001ABC?ref=1")
  = [py "https://x"; py "B001ABC?ref=1"].
Proof. reflexivity. Qed.

Example split_adjacent_separators :
  split (py "aa") (py "xaaaay") = [py "x"; []; py "y"].
Proof. reflexivity. Qed.

Example split_without_separator : split (py "?") (py "B001ABC") = [py "B001ABC"].
Proof. reflexivity. Qed.

Example affiliate_link_unknown_shape :
  create_affiliate_link (py "tag123") (py "https://x/item/42")
  = py "https://x/item/42".
Proof. reflexivity. Qed.

Example affiliate_link_gp_product :
  create_affiliate_link (py "tag123") (py "https://x/gp/product/B002/ref=9")
  = py "https://www.amazon.com/dp/B002?tag=tag123".
Proof. reflexivity. Qed.

Lemma search_terms_of_valid (category : pystr) :
  category ∈ Main.valid_categories ->
  length (search_terms_of category) = 3%nat.
Proof.
  intros H. unfold Main.valid_categories in H.
  repeat (apply elem_of_cons in H as [->|H]; [reflexivity|]).
  inversion H.
Qed.

Lemma search_loop_nothing search_page (terms : list pystr) (max_products : Z) :
  (forall term, _search_amazon_products search_page term 0 = []) ->
  search_loop search_page terms 0 max_products [] = [].
Proof.
  intros Hnone. induction terms as [|t rest IH]; simpl; [reflexivity|].
  destruct (max_products <=? len []); [reflexivity|].
  rewrite Hnone. exact IH.
Qed.

End BotFacts.

(** C3 (as amended). [create_affiliate_link] applied to
    ["https://x/dp/B001ABC?ref=1"] with the tag ["tag123"] returns
    ["https://www.amazon.com/dp/B001ABC?tag=tag123"]: the item id is kept,
    the query is replaced by the tag, and the link is on the fixed domain
    [www.amazon.com]. *)
Theorem create_affiliate_link_example :
  Bot.create_affiliate_link (py "tag123") (py "https://x/dp/B001ABC?ref=1")
  = py "https://www.amazon.com/dp/B001ABC?tag=tag123".
Proof. vm_compute. reflexivity. Qed.

(** C3 (as stated) fails: the link built from
    ["https://x/dp/B001ABC?ref=1"] is not ["https://x/dp/B001ABC?tag=tag123"],
    the domain of the input is not kept. *)
Lemma create_affiliate_link_drops_domain :
  Bot.create_affiliate_link (py "tag123") (py "https://x/dp/B001ABC?ref=1")
  <> py "https://x/dp/B001ABC?tag=tag123".
Proof. vm_compute. discriminate. Qed.

(** C6. For a product whose title has exactly 120 characters, the pin
    title is the first 97 characters of the title followed by ["..."], 100
    characters in all, whatever the generator draws: no prefix is
    prepended. In general the title is returned without a prefix as soon as
    the possibly shortened title has 80 characters or more. *)
Theorem pin_title_of_120_characters (draw : nat) (product : Bot.Product)
    (t : pystr) :
  Bot.title product = Some t ->
  length t = 120%nat ->
  Bot._generate_pin_title draw product = take 97 t ++ py "..."
  /\ length (Bot._generate_pin_title draw product) = 100%nat
  /\ forall (draw' : nat) (product' : Bot.Product),
       80 <= len (Bot.shortened_title product') ->
       Bot._generate_pin_title draw' product' = Bot.shortened_title product'.
Proof.
  intros Ht Hlen.
  assert (Hshort : Bot.shortened_title product = take 97 t ++ py "...").
  { unfold Bot.shortened_title. rewrite Ht. simpl default.
    unfold len. rewrite Hlen. reflexivity. }
  assert (Hl : length (take 97 t ++ py "...") = 100%nat).
  { rewrite length_app, length_take, Hlen. reflexivity. }
  assert (Hgen : Bot._generate_pin_title draw product = take 97 t ++ py "...").
  { unfold Bot._generate_pin_title. rewrite Hshort. unfold len. rewrite Hl.
    reflexivity. }
  split; [exact Hgen|]. split; [by rewrite Hgen|].
  intros draw' product' H80. unfold Bot._generate_pin_title.
  destruct (Z.ltb_spec (len (Bot.shortened_title product')) 80); [lia|reflexivity].
Qed.

Lemma pin_title_of_120_characters_witness :
  let product :=
    {| Bot.title := Some (replicate 120 65%N); Bot.url := None;
       Bot.asin := None; Bot.price := None; Bot.image_url := None;
       Bot.rating := None; Bot.search_rank := None;
       Bot.description := None; Bot.features := None; Bot.images := None;
       Bot.reviews_count := None; Bot.availability := None;
       Bot.category := None |} in
  Bot._generate_pin_title 3 product = replicate 97 65%N ++ py "..."
  /\ length (Bot._generate_pin_title 3 product) = 100%nat.
Proof.
  intros product.
  destruct (pin_title_of_120_characters 3 product (replicate 120 65%N))
    as (H1 & H2 & _); [reflexivity | reflexivity |].
  split; [exact H1 | exact H2].
Defined.

(** C7. For every category and every requested maximum (a count, so not
    negative), the list [get_trending_products] returns has no two products
    with the same ASIN and at most the requested number of products; every
    product in it has an ASIN, is the first product with that ASIN among
    the accumulated search results, and the list follows the order of the
    accumulated results. *)
Theorem get_trending_products_unique_and_bounded
    (search_page : pystr -> option (list Bot.Container))
    (category : pystr) (max_products : Z) :
  0 <= max_products ->
  let found := Bot.get_trending_products search_page category max_products in
  let accumulated :=
    Bot.accumulated_products search_page category max_products in
  NoDup (map Bot.asin found)
  /\ len found <= max_products
  /\ sublist found accumulated
  /\ forall p, p ∈ found ->
       (exists a, Bot.asin p = Some a)
       /\ List.find (fun q => bool_decide (Bot.asin q = Bot.asin p)) accumulated
          = Some p.
Proof.
  intros Hmax found accumulated.
  destruct (remove_duplicates_from_spec accumulated ∅) as (Hsub & Hnd & Hfirst).
  assert (Hfound : found = take (Z.to_nat max_products)
                             (Bot._remove_duplicate_products accumulated)).
  { unfold found, Bot.get_trending_products. by rewrite slice_to_nonneg. }
  assert (Hsub' : sublist found (Bot._remove_duplicate_products accumulated)).
  { rewrite Hfound. apply sublist_take. }
  split; [|split; [|split]].
  - eapply sublist_NoDup; [exact Hnd|]. by apply (fmap_sublist Bot.asin).
  - rewrite Hfound. unfold len. rewrite length_take. lia.
  - by etrans.
  - intros p Hp.
    assert (Hp' : p ∈ Bot._remove_duplicate_products accumulated).
    { eapply elem_of_sublist; eassumption. }
    destruct (Hfirst p Hp') as (a & Ha & _ & _ & Hfind).
    split; [by exists a | exact Hfind].
Qed.

Lemma get_trending_products_unique_and_bounded_witness :
  let container := fun a : pystr =>
    {| Bot.c_title := Some (py "Lamp");
       Bot.c_url := Some (py "https://www.amazon.com/dp/" ++ a);
       Bot.c_asin := Some a;
       Bot.c_price := None; Bot.c_image_url := None; Bot.c_rating := None;
       Bot.c_previous_siblings := Some 0 |} in
  let page := fun _ : pystr =>
    Some [container (py "B01"); container (py "B02"); container (py "B03")] in
  let found := Bot.get_trending_products page (py "electronics") 6 in
  NoDup (map Bot.asin found)
  /\ len found <= 6
  /\ map Bot.asin found = [Some (py "B01"); Some (py "B02")].
Proof.
  intros container page found.
  destruct (get_trending_products_unique_and_bounded
              page (py "electronics") 6) as (H1 & H2 & _);
    [lia|].
  split; [exact H1|]. split; [exact H2|]. reflexivity.
Defined.

(** C10. For every category of the allow-list (each has exactly 3 search
    terms) and a requested maximum of 1 or 2 (both accepted by the
    validator of [max_products_per_category]), the per-term quota
    [max_products // 3] is 0, every term query returns no product, and
    [get_trending_products] returns the empty list, whatever the search
    pages hold. *)
Theorem get_trending_products_small_maximum
    (search_page : pystr -> option (list Bot.Container))
    (category : pystr) (max_products : Z) :
  category ∈ Main.valid_categories ->
  max_products = 1 \/ max_products = 2 ->
  Main.validate_max_products max_products = Ok max_products
  /\ length (Bot.search_terms_of category) = 3%nat
  /\ max_products / len (Bot.search_terms_of category) = 0
  /\ (forall term,
        Bot._search_amazon_products search_page term
          (max_products / len (Bot.search_terms_of category)) = [])
  /\ Bot.get_trending_products search_page category max_products = [].
Proof.
  intros Hcat Hmax.
  pose proof (search_terms_of_valid category Hcat) as Hterms.
  assert (Hquota : max_products / len (Bot.search_terms_of category) = 0).
  { unfold len. rewrite Hterms. by destruct Hmax as [-> | ->]. }
  assert (Hnone : forall term,
            Bot._search_amazon_products search_page term 0 = []).
  { intros term. unfold Bot._search_amazon_products.
    destruct (search_page term); reflexivity. }
  split; [by destruct Hmax as [-> | ->]|].
  split; [exact Hterms|]. split; [exact Hquota|]. split.
  - intros term. rewrite Hquota. apply Hnone.
  - unfold Bot.get_trending_products, Bot.accumulated_products.
    rewrite Hquota, search_loop_nothing by exact Hnone.
    unfold Bot._remove_duplicate_products. simpl.
    by destruct Hmax as [-> | ->].
Qed.

Lemma get_trending_products_small_maximum_witness :
  Bot.get_trending_products
    (fun _ => Some [ {| Bot.c_title := Some (py "Lamp");
                        Bot.c_url := Some (py "https://www.amazon.com/dp/B01");
                        Bot.c_asin := Some (py "B01");
                        Bot.c_price := None; Bot.c_image_url := None;
                        Bot.c_rating := None;
                        Bot.c_previous_siblings := Some 0 |} ])
    (py "home") 2 = [].
Proof.
  apply (get_trending_products_small_maximum _ (py "home") 2).
  - unfold Main.valid_categories. set_solver.
  - right. reflexivity.
Defined.

(* ===================================================================== *)
(** * Properties of the credential encryption                             *)
(* ===================================================================== *)

Section VaultFacts.

Import Vault.

Variable P : Primitives.
Hypothesis laws : lawful P.

(** With a salt given, the key does not depend on the random bytes. *)
Lemma generate_key_given_salt (password : pystr) (s u : bytes) (pw : bytes) :
  str_encode P password = Ok pw ->
  generate_key P password (Some s) u
  = Ok (urlsafe_b64encode P (pbkdf2 P s pw), s).
Proof. intros Hpw. unfold generate_key. rewrite Hpw. reflexivity. Qed.

Lemma derived_key_accepted (s pw : bytes) :
  fernet_new P (urlsafe_b64encode P (pbkdf2 P s pw)) = Ok tt.
Proof. apply (fernet_key_ok P laws), (pbkdf2_length P laws). Qed.

Lemma encrypt_then_decrypt (now : Z) (iv : bytes) (data : pystr)
    (d key : bytes) :
  fernet_new P key = Ok tt ->
  str_encode P data = Ok d ->
  exists c, encrypt_data P now iv data key = Ok c
            /\ decrypt_data P c key = Ok data.
Proof.
  intros Hkey Hd.
  destruct (fernet_round_trip P laws key now iv d Hkey)
    as (token & Henc & Hdec).
  destruct (b64_is_text P laws token) as (c & Hc & Hback).
  exists c. unfold encrypt_data, decrypt_data.
  rewrite Hkey, Hd. simpl. rewrite Henc. simpl. split; [exact Hc|].
  rewrite Hback. simpl.
  rewrite (b64_round_trip P laws). simpl.
  rewrite Hdec. simpl.
  apply (decode_encode P laws), Hd.
Qed.

End VaultFacts.

Section PlainPrimitives.

Import Scenario.

Lemma plain_encode_decode (s : pystr) (b : bytes) :
  mapM Byte.of_N s = Some b -> map Byte.to_N b = s.
Proof.
  revert b. induction s as [|c s IH]; intros b; simpl.
  - intros [= <-]. reflexivity.
  - destruct (Byte.of_N c) as [x|] eqn:Hc; simpl; [|discriminate].
    destruct (mapM Byte.of_N s) as [b'|]; simpl; [|discriminate].
    intros [= <-]. simpl.
    f_equal; [exact (Byte.to_of_N _ Hc) | exact (IH _ eq_refl)].
Qed.

Lemma plain_decode_encode (b : bytes) :
  mapM Byte.of_N (map Byte.to_N b) = Some b.
Proof.
  induction b as [|x b IH]; simpl; [reflexivity|].
  rewrite Byte.of_to_N. simpl. rewrite IH. reflexivity.
Qed.

Lemma plain_primitives_lawful : Vault.lawful plain_primitives.
Proof.
  split; simpl.
  - reflexivity.
  - intros s b. unfold plain_encode.
    destruct (mapM Byte.of_N s) as [b'|] eqn:Hs; [|discriminate].
    intros [= <-]. f_equal. by apply plain_encode_decode.
  - intros b. exists (map Byte.to_N b). split; [reflexivity|].
    unfold plain_encode. by rewrite plain_decode_encode.
  - intros _ _. reflexivity.
  - intros raw ->. reflexivity.
  - intros k _ _ d _. exists d. split; reflexivity.
Qed.

End PlainPrimitives.

(** C9. For every plaintext [x], passphrase [p] and salt [s] (both strings
    being encodable), the key derived from [(p, s)] is the same whatever
    random bytes the process draws, [encrypt_data] of [x] under it returns a
    ciphertext, and [decrypt_data] of that ciphertext under the key derived
    again from [(p, s)] returns [x]. The library functions are taken with
    their documented behaviour ([Vault.lawful]). *)
Theorem decrypt_encrypt_round_trip (P : Vault.Primitives)
    (x p : pystr) (s u1 u2 iv xb pb : bytes) (now : Z) :
  Vault.lawful P ->
  Vault.str_encode P x = Ok xb ->
  Vault.str_encode P p = Ok pb ->
  exists k c,
    Vault.generate_key P p (Some s) u1 = Ok (k, s)
    /\ Vault.generate_key P p (Some s) u2 = Ok (k, s)
    /\ Vault.encrypt_data P now iv x k = Ok c
    /\ Vault.decrypt_data P c k = Ok x.
Proof.
  intros laws Hx Hp.
  destruct (encrypt_then_decrypt P laws now iv x xb
              (Vault.urlsafe_b64encode P (Vault.pbkdf2 P s pb)))
    as (c & Henc & Hdec); [by apply derived_key_accepted | exact Hx |].
  exists (Vault.urlsafe_b64encode P (Vault.pbkdf2 P s pb)), c.
  split; [by apply generate_key_given_salt|].
  split; [by apply generate_key_given_salt|].
  split; assumption.
Qed.

Lemma decrypt_encrypt_round_trip_witness :
  exists k c,
    Vault.generate_key Scenario.plain_primitives (py "secret")
      (Some (replicate 16 x01)) [] = Ok (k, replicate 16 x01)
    /\ Vault.generate_key Scenario.plain_primitives (py "secret")
         (Some (replicate 16 x01)) (replicate 16 x02)
       = Ok (k, replicate 16 x01)
    /\ Vault.encrypt_data Scenario.plain_primitives 0 [] (py "hello") k = Ok c
    /\ Vault.decrypt_data Scenario.plain_primitives c k = Ok (py "hello").
Proof.
  apply (decrypt_encrypt_round_trip Scenario.plain_primitives
           (py "hello") (py "secret") (replicate 16 x01) [] (replicate 16 x02)
           [] [x68; x65; x6c; x6c; x6f] [x73; x65; x63; x72; x65; x74] 0).
  - exact plain_primitives_lawful.
  - reflexivity.
  - reflexivity.
Defined.

(* ===================================================================== *)
(** * The category loop and the task                                      *)
(* ===================================================================== *)

Section Percentages.

Lemma percent_le (c c' t : Z) :
  0 <= t -> c <= c' ->
  (inject_Z c / inject_Z t * 100 <= inject_Z c' / inject_Z t * 100)%Q.
Proof.
  intros Ht Hc. unfold Qle, Qdiv, Qmult, Qinv, inject_Z.
  destruct t as [|p|p]; simpl; [lia | nia | lia].
Qed.

Lemma percent_le_100 (c t : Z) :
  0 <= t -> c <= t -> (inject_Z c / inject_Z t * 100 <= 100)%Q.
Proof.
  intros Ht Hc. unfold Qle, Qdiv, Qmult, Qinv, inject_Z.
  destruct t as [|p|p]; simpl; [lia | nia | lia].
Qed.

End Percentages.

(* ===================================================================== *)
(** * Reasoning about the task monad                                      *)
(* ===================================================================== *)

Section TaskFacts.

Import Main Logic.

Variable le : Q -> Q -> Prop.
Hypothesis le_refl : forall q, le q q.
Hypothesis le_trans : forall p q r, le p q -> le q r -> le p r.
Hypothesis le_Qle : forall p q, (p <= q)%Q -> le p q.

Variable job_id : pystr.

Abbreviation advances := (advances le job_id).
Abbreviation path := (path le job_id).
Abbreviation wp := (wp le job_id).

Arguments Logic.wp : simpl never.

Lemma advances_refl (w : World) : advances w w.
Proof. intros job Hjob. exists job. split; [exact Hjob | apply le_refl]. Qed.

Lemma advances_trans (w1 w2 w3 : World) :
  advances w1 w2 -> advances w2 w3 -> advances w1 w3.
Proof.
  intros H12 H23 job1 Hjob1.
  destruct (H12 job1 Hjob1) as (job2 & Hjob2 & Hle12).
  destruct (H23 job2 Hjob2) as (job3 & Hjob3 & Hle23).
  exists job3. split; [exact Hjob3 | by eapply le_trans].
Qed.

(** A change that leaves the jobs alone advances. *)
Lemma advances_same_jobs (w1 w2 : World) :
  active_jobs w2 = active_jobs w1 -> advances w1 w2.
Proof.
  intros Heq job Hjob. exists job. rewrite Heq.
  split; [exact Hjob | apply le_refl].
Qed.

Lemma path_app (w w1 w2 : World) (t1 t2 : list World) :
  path w t1 w1 -> path w1 t2 w2 ->
  path w (t1 ++ t2) w2.
Proof.
  revert w. induction t1 as [|x t1 IH]; intros w H1 H2; simpl in *.
  - destruct t2 as [|y t2]; simpl in *.
    + by eapply advances_trans.
    + destruct H2 as [Hy H2]. split; [by eapply advances_trans | exact H2].
  - destruct H1 as [Hx H1]. split; [exact Hx | by apply IH].
Qed.

(** Along a path, an earlier state advances to any later one. *)
Lemma path_lookup (tr : list World) :
  forall (w w' : World), path w tr w' ->
    forall (i k : nat) (wi wk : World), (i <= k)%nat ->
      (w :: tr ++ [w']) !! i = Some wi ->
      (w :: tr ++ [w']) !! k = Some wk ->
      advances wi wk.
Proof.
  induction tr as [|x tr IH]; intros w w' Hpath i k wi wk Hik Hi Hk;
    simpl in Hpath.
  - destruct i as [|[|i]], k as [|[|k]]; simpl in *; simplify_eq;
      try lia; try apply advances_refl; try exact Hpath.
  - destruct Hpath as [Hx Hpath].
    destruct i as [|i].
    + simpl in Hi. injection Hi as <-.
      destruct k as [|k]; simpl in Hk.
      * injection Hk as <-. apply advances_refl.
      * eapply advances_trans; [exact Hx|].
        apply (IH x w' Hpath 0%nat k); [lia | reflexivity | exact Hk].
    + destruct k as [|k]; [lia|]. simpl in Hi, Hk.
      apply (IH x w' Hpath i k); [lia | exact Hi | exact Hk].
Qed.

(** ** Rules *)

Lemma wp_ret {A : Type} (a : A) (Q : outcome A -> World -> Prop) w :
  Q (Ok a) w -> wp (ret a) Q w.
Proof. intros HQ. split; [exact HQ | apply advances_refl]. Qed.

Lemma wp_raise {A : Type} (e : exn) (Q : outcome A -> World -> Prop) w :
  Q (Raise e) w -> wp (raise e) Q w.
Proof. intros HQ. split; [exact HQ | apply advances_refl]. Qed.

Lemma wp_lift {A : Type} (o : outcome A) (Q : outcome A -> World -> Prop) w :
  Q o w -> wp (lift o) Q w.
Proof. intros HQ. split; [exact HQ | apply advances_refl]. Qed.

Lemma wp_get (Q : outcome World -> World -> Prop) w :
  Q (Ok w) w -> wp get Q w.
Proof. intros HQ. split; [exact HQ | apply advances_refl]. Qed.

Lemma wp_now (Q : outcome nat -> World -> Prop) w :
  Q (Ok (clock w)) (tick w) -> wp now Q w.
Proof. intros HQ. split; [exact HQ | by apply advances_same_jobs]. Qed.

Lemma wp_write (f : World -> World) (Q : outcome unit -> World -> Prop) w :
  advances w (f w) -> Q (Ok tt) (f w) -> wp (write f) Q w.
Proof.
  intros Hadv HQ. split; [exact HQ|]. split; [exact Hadv | apply advances_refl].
Qed.

Lemma wp_bind {A B : Type} (m : M A) (k : A -> M B)
    (Q : outcome B -> World -> Prop) w :
  wp m
    (fun r w1 =>
       match r with
       | Ok a => wp (k a) Q w1
       | Raise e => Q (Raise e) w1
       end) w ->
  wp (bind m k) Q w.
Proof.
  unfold wp, bind. destruct (m w) as [[[a|e] w1] t1]; intros [HQ Hp].
  - destruct (k a w1) as [[r w2] t2]. destruct HQ as [HQ Hp2].
    split; [exact HQ | by eapply path_app].
  - split; [exact HQ | exact Hp].
Qed.

Lemma wp_attempt {A : Type} (m : M A)
    (Q : outcome (outcome A) -> World -> Prop) w :
  wp m (fun r w1 => Q (Ok r) w1) w -> wp (attempt m) Q w.
Proof. unfold wp, attempt. destruct (m w) as [[r w1] t1]. tauto. Qed.

Lemma wp_mono {A : Type} (m : M A) (Q Q' : outcome A -> World -> Prop) w :
  wp m Q w -> (forall r w', Q r w' -> Q' r w') -> wp m Q' w.
Proof.
  unfold wp. destruct (m w) as [[r w1] t1]. intros [HQ Hp] Himp.
  split; [by apply Himp | exact Hp].
Qed.

(** A write to the watched job that does not lower its percentage. *)
Lemma wp_job_write (f : Job -> Job) (Q : outcome unit -> World -> Prop)
    w job :
  active_jobs w !! job_id = Some job ->
  le (percent job) (percent (f job)) ->
  Q (Ok tt) (with_active_jobs (insert job_id (f job)) w) ->
  wp (job_write job_id f) Q w.
Proof.
  intros Hjob Hle HQ. unfold job_write.
  apply wp_bind, wp_get. rewrite Hjob. apply wp_write; [|exact HQ].
  intros job1 Hjob1. exists (f job). simpl. rewrite lookup_insert_eq.
  split; [reflexivity|]. congruence.
Qed.

Lemma wp_obj_write (l : nat) (f : OverallResults -> OverallResults)
    (Q : outcome unit -> World -> Prop) w :
  Q (Ok tt) (with_objects (alter f l) w) ->
  wp (obj_write l f) Q w.
Proof. intros HQ. apply wp_write; [by apply advances_same_jobs | exact HQ]. Qed.

Lemma wp_alloc (o : OverallResults) (Q : outcome nat -> World -> Prop) w :
  Q (Ok (fresh (dom (objects w))))
    (with_objects (insert (fresh (dom (objects w))) o) w) ->
  wp (alloc o) Q w.
Proof.
  intros HQ. unfold alloc. apply wp_bind, wp_get.
  apply wp_bind, wp_write; [by apply advances_same_jobs|].
  by apply wp_ret.
Qed.

(** ** The category loop *)

Variable E : Collaborators.
Variable config : AutomationConfigModel.

(** The loop over the categories [cats], the first at position [i], with
    [c] categories completed: it returns, keeps the job's status and
    error, leaves in [overall_results] the answers recorded in order, and
    never lowers the percentage. *)
Lemma category_loop_wp (bot : Bot.Self) (l : nat) (total : Z)
    (cats : list pystr) :
  forall (i : nat) (c : Z) (w : World) (job : Job) (o : OverallResults)
         (Q : outcome Z -> World -> Prop),
    active_jobs w !! job_id = Some job ->
    objects w !! l = Some o ->
    Z.of_nat i + len cats = total ->
    0 <= c <= Z.of_nat i ->
    le (percent job) (inject_Z c / inject_Z total * 100)%Q ->
    (forall c' w' job',
        c <= c' <= total ->
        active_jobs w' !! job_id = Some job' ->
        status job' = status job ->
        error job' = error job ->
        le (percent job') (inject_Z c' / inject_Z total * 100)%Q ->
        objects w' !! l = Some (aggregate E config bot i cats o) ->
        Q (Ok c') w') ->
    wp
      (category_loop E job_id config bot l total i cats c) Q w.
Proof.
  induction cats as [|category rest IH];
    intros i c w job o Q Hjob Hobj Htotal Hc Hpct HQ.
  - simpl. apply wp_ret. apply (HQ c w job); try done.
    unfold len in Htotal. simpl in Htotal. lia.
  - assert (Hpos : 0 < total).
    { unfold len in Htotal. simpl in Htotal. lia. }
    assert (Hrest : Z.of_nat (S i) + len rest = total).
    { unfold len in *. simpl in Htotal. lia. }
    simpl. apply wp_bind, wp_attempt.
    unfold category_try_first.
    apply wp_bind.
    destruct (Z.eqb_spec total 0) as [Hz|_]; [lia|].
    apply wp_ret.
    apply wp_bind. eapply wp_job_write; [exact Hjob | exact Hpct |].
    apply wp_bind, wp_lift. fold (answer E config bot i category).
    destruct (answer E config bot i category) as [res|e] eqn:Hans.
    + do 3 (apply wp_bind, wp_obj_write).
      apply wp_obj_write.
      apply wp_bind, wp_attempt. unfold category_try_rest.
      apply wp_bind. eapply wp_job_write;
        [simpl; apply lookup_insert_eq | apply le_refl |].
      apply wp_bind, wp_now.
      eapply wp_job_write;
        [simpl; apply lookup_insert_eq | apply le_refl |].
      apply wp_bind, wp_ret.
      eapply (IH (S i) (c + 1)); try exact Hrest.
      * simpl. apply lookup_insert_eq.
      * simpl. rewrite !lookup_alter_eq, Hobj. reflexivity.
      * lia.
      * simpl. unfold percent. simpl. apply le_Qle, percent_le; lia.
      * intros c' w' job' Hc' Hjob' Hst Herr Hp Ho.
        apply (HQ c' w' job'); try done; [lia|].
        rewrite Ho. simpl. rewrite Hans. reflexivity.
    + unfold category_except.
      apply wp_bind, wp_bind, wp_obj_write. apply wp_obj_write.
      eapply (IH (S i) c); try exact Hrest.
      * simpl. apply lookup_insert_eq.
      * simpl. rewrite !lookup_alter_eq, Hobj. reflexivity.
      * lia.
      * simpl. unfold percent. simpl. apply le_refl.
      * intros c' w' job' Hc' Hjob' Hst Herr Hp Ho.
        apply (HQ c' w' job'); try done.
        rewrite Ho. simpl. rewrite Hans. reflexivity.
Qed.

(** ** The task *)

Variable encrypted_credentials : pystr.
Variable encryption_key : bytes.

Lemma zero_percent (total' : Z) :
  (0 <= inject_Z 0 / inject_Z total' * 100)%Q.
Proof.
  unfold Qle, Qdiv, Qmult, Qinv, inject_Z.
  destruct total' as [|p|p]; simpl; lia.
Qed.

(** The body of the outer [try]: when the credentials cannot be turned
    into a bot it raises with the job left [running]; otherwise it
    returns with the job [completed] at 100 percent, its results being
    the answers of all categories recorded in order. *)
Lemma task_try_wp (w : World) (job : Job)
    (Q : outcome unit -> World -> Prop) :
  active_jobs w !! job_id = Some job ->
  le (percent job) 0%Q ->
  (forall e w' job',
      prepared_bot E encrypted_credentials encryption_key = Raise e ->
      active_jobs w' !! job_id = Some job' ->
      status job' = running ->
      error job' = error job ->
      Q (Raise e) w') ->
  (forall bot' w' job' l',
      prepared_bot E encrypted_credentials encryption_key = Ok bot' ->
      active_jobs w' !! job_id = Some job' ->
      status job' = completed ->
      error job' = error job ->
      overall_progress (progress job') = 100%Q ->
      results job' = Some l' ->
      objects w' !! l'
      = Some (aggregate E config bot' 0 (categories config)
                {| total_products_found := 0; total_pins_created := 0;
                   total_errors := 0; category_results := ∅ |}) ->
      Q (Ok tt) w') ->
  wp (task_try E job_id encrypted_credentials config encryption_key) Q w.
Proof.
  intros Hjob Hpct Hfail Hdone. unfold task_try.
  apply wp_bind. eapply wp_job_write; [exact Hjob | apply le_refl |].
  apply wp_bind, wp_now.
  apply wp_bind. eapply wp_job_write;
    [simpl; apply lookup_insert_eq | apply le_refl |].
  unfold prepared_bot in Hfail, Hdone.
  apply wp_bind, wp_lift.
  destruct (Vault.decrypt_data (crypto E) encrypted_credentials
              encryption_key) as [cj|e]; simpl in Hfail, Hdone;
    [|eapply Hfail; [reflexivity | simpl; apply lookup_insert_eq | done..]].
  apply wp_bind, wp_lift.
  destruct (json_loads E cj) as [cr|e]; simpl in Hfail, Hdone;
    [|eapply Hfail; [reflexivity | simpl; apply lookup_insert_eq | done..]].
  apply wp_bind, wp_lift.
  destruct (new_bot E (cr_pinterest_token cr) (cr_amazon_tag cr))
    as [bot'|e];
    [|eapply Hfail; [reflexivity | simpl; apply lookup_insert_eq | done..]].
  apply wp_bind, wp_alloc.
  apply wp_bind.
  eapply (category_loop_wp bot' _ (len (categories config))).
  - simpl. apply lookup_insert_eq.
  - simpl. apply lookup_insert_eq.
  - simpl. reflexivity.
  - simpl. lia.
  - unfold percent in *. simpl.
    eapply le_trans; [exact Hpct | apply le_Qle, zero_percent].
  - intros c' w' job' Hc' Hjob' Hst Herr Hp Ho.
    apply wp_bind. eapply wp_job_write; [exact Hjob' | apply le_refl |].
    apply wp_bind. eapply wp_job_write;
      [simpl; apply lookup_insert_eq | apply le_refl |].
    apply wp_bind. eapply wp_job_write; [simpl; apply lookup_insert_eq | |].
    { unfold percent in *. simpl.
      eapply le_trans; [exact Hp|].
      apply le_Qle, percent_le_100; unfold len in *; lia. }
    apply wp_bind, wp_now.
    eapply wp_job_write; [simpl; apply lookup_insert_eq | apply le_refl |].
    eapply (Hdone bot'); [reflexivity | simpl; apply lookup_insert_eq | ..].
    + reflexivity.
    + simpl. rewrite Herr. reflexivity.
    + reflexivity.
    + reflexivity.
    + simpl. exact Ho.
Qed.

(** [run_automation_task] on an existing job returns, with the job
    [failed] and the error recorded when no bot could be prepared, and
    [completed] otherwise. *)
Lemma run_automation_task_wp (w : World) (job : Job)
    (Q : outcome unit -> World -> Prop) :
  active_jobs w !! job_id = Some job ->
  le (percent job) 0%Q ->
  (forall e w' job',
      prepared_bot E encrypted_credentials encryption_key = Raise e ->
      active_jobs w' !! job_id = Some job' ->
      status job' = failed ->
      error job' = Some (str_of_exn e) ->
      Q (Ok tt) w') ->
  (forall bot' w' job' l',
      prepared_bot E encrypted_credentials encryption_key = Ok bot' ->
      active_jobs w' !! job_id = Some job' ->
      status job' = completed ->
      error job' = error job ->
      overall_progress (progress job') = 100%Q ->
      results job' = Some l' ->
      objects w' !! l'
      = Some (aggregate E config bot' 0 (categories config)
                {| total_products_found := 0; total_pins_created := 0;
                   total_errors := 0; category_results := ∅ |}) ->
      Q (Ok tt) w') ->
  wp (run_automation_task E job_id encrypted_credentials config
        encryption_key) Q w.
Proof.
  intros Hjob Hpct Hfail Hdone. unfold run_automation_task.
  apply wp_bind, wp_attempt.
  apply (task_try_wp w job); [exact Hjob | exact Hpct | |].
  - intros e w' job' Hprep Hjob' Hst Herr. unfold task_except.
    apply wp_bind. eapply wp_job_write; [exact Hjob' | apply le_refl |].
    apply wp_bind. eapply wp_job_write;
      [simpl; apply lookup_insert_eq | apply le_refl |].
    apply wp_bind, wp_now.
    eapply wp_job_write; [simpl; apply lookup_insert_eq | apply le_refl |].
    eapply Hfail; [exact Hprep | simpl; apply lookup_insert_eq | done..].
  - intros bot' w' job' l' Hprep Hjob' Hst Herr Hp Hres Hobj.
    apply wp_ret. by eapply Hdone.
Qed.

End TaskFacts.

(* ===================================================================== *)
(** * The aggregate results                                               *)
(* ===================================================================== *)

Section AggregateFacts.

Import Main Logic.

Variable E : Collaborators.
Variable config : AutomationConfigModel.
Variable bot : Bot.Self.

Lemma record_answer_counts (category : pystr) (r : outcome Bot.Results)
    (o : OverallResults) :
  total_errors (record_answer category r o)
  = total_errors o + counted_errors r
  /\ total_products_found (record_answer category r o)
     = total_products_found o + counted_products r
  /\ total_pins_created (record_answer category r o)
     = total_pins_created o + counted_pins r.
Proof. destruct r; simpl; repeat split; lia. Qed.

(** The three counts after the loop: what was there plus what each
    answer adds. *)
Lemma aggregate_counts (cats : list pystr) :
  forall (i : nat) (o : OverallResults),
    let rs := imap (fun k => answer E config bot (i + k)) cats in
    total_errors (aggregate E config bot i cats o)
    = total_errors o + Zsum (counted_errors <$> rs)
    /\ total_products_found (aggregate E config bot i cats o)
       = total_products_found o + Zsum (counted_products <$> rs)
    /\ total_pins_created (aggregate E config bot i cats o)
       = total_pins_created o + Zsum (counted_pins <$> rs).
Proof.
  induction cats as [|category rest IH]; intros i o; simpl.
  - repeat split; lia.
  - destruct (IH (S i)
                (record_answer category (answer E config bot i category) o))
      as (He & Hf & Hp).
    destruct (record_answer_counts category
                (answer E config bot i category) o) as (He' & Hf' & Hp').
    rewrite Nat.add_0_r.
    assert (Hshift :
      imap ((fun k => answer E config bot (i + k)) ∘ S) rest
      = imap (fun k => answer E config bot (S i + k)) rest).
    { apply imap_ext. intros k c _. simpl. f_equal. lia. }
    rewrite Hshift, He, Hf, Hp, He', Hf', Hp'.
    repeat split; symmetry; apply Z.add_assoc.
Qed.

Lemma aggregate_other_category (c : pystr) (cats : list pystr) :
  forall (i : nat) (o : OverallResults),
    c ∉ cats ->
    category_results (aggregate E config bot i cats o) !! c
    = category_results o !! c.
Proof.
  induction cats as [|category rest IH]; intros i o Hnot; simpl;
    [reflexivity|].
  apply not_elem_of_cons in Hnot as [Hne Hnot].
  rewrite IH by exact Hnot.
  destruct (answer E config bot i category); simpl;
    by rewrite lookup_insert_ne.
Qed.

(** The entry of a category is the record of the answer to its last
    occurrence in the list. *)
Lemma aggregate_last_occurrence (cats : list pystr) :
  forall (i k : nat) (c : pystr) (o : OverallResults),
    cats !! k = Some c ->
    c ∉ drop (S k) cats ->
    category_results (aggregate E config bot i cats o) !! c
    = Some (match answer E config bot (i + k) c with
            | Ok res => CategoryResults res
            | Raise e => CategoryError (str_of_exn e)
            end).
Proof.
  induction cats as [|category rest IH]; intros i k c o Hk Hlast;
    [inversion Hk|].
  destruct k as [|k]; simpl in Hk, Hlast.
  - injection Hk as ->. simpl.
    rewrite aggregate_other_category by exact Hlast.
    rewrite Nat.add_0_r.
    destruct (answer E config bot i c); simpl; apply lookup_insert_eq.
  - simpl. rewrite (IH (S i) k c) by assumption.
    by replace (S i + k)%nat with (i + S k)%nat by lia.
Qed.

Lemma Zsum_without_zero {A : Type} (f : A -> Z) (xs : list A) :
  forall (k : nat) (x : A),
    xs !! k = Some x -> f x = 0 ->
    Zsum (f <$> delete k xs) = Zsum (f <$> xs).
Proof.
  induction xs as [|y xs IH]; intros k x Hk Hx; [inversion Hk|].
  destruct k as [|k]; simpl in *.
  - injection Hk as ->. rewrite Hx. reflexivity.
  - f_equal. exact (IH k x Hk Hx).
Qed.

End AggregateFacts.

Section NoBoards.

(** Without boards and without a board given, the automation of a
    category returns its initial results. *)
Lemma run_complete_automation_no_boards (self : Bot.Self)
    (net : Bot.Network) (category : pystr) (max_products : Z)
    (post_interval : Z) :
  Bot.boards net = [] ->
  Bot.run_complete_automation self net category max_products None
    post_interval = Bot.initial_results.
Proof.
  intros Hboards. unfold Bot.run_complete_automation. simpl.
  rewrite Hboards. reflexivity.
Qed.

End NoBoards.

(* ===================================================================== *)
(** * Properties of the task                                              *)
(* ===================================================================== *)

Section TaskResults.

Import Main Logic.

(** When a bot can be prepared, the task on an existing job returns and
    leaves the job [completed], its error untouched, its results being
    the answers of all categories recorded in order. *)
Lemma completed_task_results (E : Collaborators) (job_id enc : pystr)
    (config : AutomationConfigModel) (key : bytes) (w : World) (job : Job)
    (bot : Bot.Self) :
  active_jobs w !! job_id = Some job ->
  prepared_bot E enc key = Ok bot ->
  exists w' tr job' l,
    run_automation_task E job_id enc config key w = (Ok tt, w', tr)
    /\ active_jobs w' !! job_id = Some job'
    /\ status job' = completed
    /\ error job' = error job
    /\ results job' = Some l
    /\ objects w' !! l
       = Some (aggregate E config bot 0 (categories config)
                 {| total_products_found := 0; total_pins_created := 0;
                    total_errors := 0; category_results := ∅ |}).
Proof.
  intros Hjob Hprep.
  pose proof (run_automation_task_wp any_order
                (fun _ => I) (fun _ _ _ _ _ => I) (fun _ _ _ => I)
                job_id E config enc key w job
                (fun r w' =>
                   r = Ok tt /\ exists job' l,
                     active_jobs w' !! job_id = Some job'
                     /\ status job' = completed
                     /\ error job' = error job
                     /\ results job' = Some l
                     /\ objects w' !! l
                        = Some (aggregate E config bot 0 (categories config)
                                  {| total_products_found := 0;
                                     total_pins_created := 0;
                                     total_errors := 0;
                                     category_results := ∅ |}))
                Hjob I) as Hwp.
  unfold wp in Hwp.
  destruct (run_automation_task E job_id enc config key w) as [[r w'] tr].
  destruct Hwp as [[-> (job' & l & H)] _].
  - intros e w1 job1 Hfail. congruence.
  - intros bot' w1 job1 l1 Hbot Hjob1 Hst Herr _ Hres Hobj.
    assert (bot' = bot) as -> by congruence.
    split; [reflexivity|]. by exists job1, l1.
  - by exists w', tr, job', l.
Qed.

Lemma first_write_bind {A B : Type} (m : M A) (k : A -> M B) (w x : World) :
  (exists r w1 t, m w = (r, w1, x :: t)) ->
  exists r w' t, bind m k w = (r, w', x :: t).
Proof.
  intros (r & w1 & t & Hm). unfold bind. rewrite Hm.
  destruct r as [a|e]; [|by eauto].
  destruct (k a w1) as [[r2 w2] t2]. simpl. by eauto.
Qed.

Lemma first_write_attempt {A : Type} (m : M A) (w x : World) :
  (exists r w1 t, m w = (r, w1, x :: t)) ->
  exists r w' t, attempt m w = (r, w', x :: t).
Proof.
  intros (r & w1 & t & Hm). unfold attempt. rewrite Hm. by eauto.
Qed.

(** Whatever its status, an existing job is set to [running] by the first
    write of its task: the task never looks at the status it finds. *)
Lemma task_first_write_sets_running (E : Collaborators) (job_id enc : pystr)
    (config : AutomationConfigModel) (key : bytes) (w : World) (job : Job) :
  active_jobs w !! job_id = Some job ->
  exists r w' rest,
    run_automation_task E job_id enc config key w
    = (r, w',
       with_active_jobs (insert job_id (set_status running job)) w :: rest).
Proof.
  intros Hjob. unfold run_automation_task, task_try.
  apply first_write_bind, first_write_attempt, first_write_bind.
  unfold job_write, bind, get, write. rewrite Hjob. by eauto.
Qed.

End TaskResults.

(** C4. When the bot raises for the category at some position of the
    configured list (its last occurrence in the list; the list of a valid
    configuration names each category once), the task still returns with
    the job [completed] and without an error on the job; the entry of that
    category in [category_results] is the error message; the aggregate error
    total is the sum over all calls of 1 for a raised exception and of the
    reported errors otherwise, so the exception counts exactly once; and
    every other category is processed: the products and pins of all
    answers are summed and each answered category has its results as its
    entry. *)
Theorem category_exception_is_recorded_not_fatal
    (E : Main.Collaborators) (job_id enc : pystr)
    (config : Main.AutomationConfigModel) (key : bytes) (w : Main.World)
    (job : Main.Job) (bot : Bot.Self) (k : nat) (category : pystr)
    (e : exn) :
  Main.active_jobs w !! job_id = Some job ->
  Logic.prepared_bot E enc key = Ok bot ->
  Main.categories config !! k = Some category ->
  Logic.answer E config bot k category = Raise e ->
  category ∉ drop (S k) (Main.categories config) ->
  exists w' tr job' l o,
    Main.run_automation_task E job_id enc config key w = (Ok tt, w', tr)
    /\ Main.active_jobs w' !! job_id = Some job'
    /\ Main.status job' = Main.completed
    /\ Main.error job' = Main.error job
    /\ Main.results job' = Some l
    /\ Main.objects w' !! l = Some o
    /\ Main.category_results o !! category
       = Some (Main.CategoryError (str_of_exn e))
    /\ Logic.counted_errors (Logic.answer E config bot k category) = 1
    /\ Main.total_errors o
       = Logic.Zsum (Logic.counted_errors <$> Logic.answers E config bot)
    /\ Main.total_products_found o
       = Logic.Zsum (Logic.counted_products <$> Logic.answers E config bot)
    /\ Main.total_pins_created o
       = Logic.Zsum (Logic.counted_pins <$> Logic.answers E config bot)
    /\ forall k' category' res,
         Main.categories config !! k' = Some category' ->
         Logic.answer E config bot k' category' = Ok res ->
         category' ∉ drop (S k') (Main.categories config) ->
         Main.category_results o !! category'
         = Some (Main.CategoryResults res).
Proof.
  intros Hjob Hprep Hk Hans Hlast.
  destruct (completed_task_results E job_id enc config key w job bot Hjob Hprep)
    as (w' & tr & job' & l & Hrun & Hjob' & Hst & Herr & Hres & Hobj).
  destruct (aggregate_counts E config bot (Main.categories config) 0
              {| Main.total_products_found := 0; Main.total_pins_created := 0;
                 Main.total_errors := 0; Main.category_results := ∅ |})
    as (He & Hf & Hp).
  eexists w', tr, job', l, _.
  repeat (split; [eassumption|]).
  split.
  { rewrite (aggregate_last_occurrence E config bot _ 0 k category)
      by assumption.
    simpl. rewrite Hans. reflexivity. }
  split; [by rewrite Hans|].
  split; [exact He|]. split; [exact Hf|]. split; [exact Hp|].
  intros k' category' res Hk' Hans' Hlast'.
  rewrite (aggregate_last_occurrence E config bot _ 0 k' category')
    by assumption.
  simpl. rewrite Hans'. reflexivity.
Qed.

Lemma category_exception_is_recorded_not_fatal_witness :
  let answers := fun i : nat =>
    match i with
    | 1%nat => Raise (Exception (py "extraction failed"))
    | _ =>
        Ok {| Bot.products_found := 2; Bot.pins_created := 1;
              Bot.errors := 1; Bot.success_rate := 50;
              Bot.created_pins := [] |}
    end in
  let E := Scenario.collaborators_mock answers in
  let cats := [py "electronics"; py "home"] in
  exists w' tr job' l o,
    Main.run_automation_task E (py "job-1") (py "pinterest-token,tag123")
      (Scenario.the_config cats) (replicate 32 x00)
      (Scenario.submitted E cats) = (Ok tt, w', tr)
    /\ Main.active_jobs w' !! py "job-1" = Some job'
    /\ Main.status job' = Main.completed
    /\ Main.results job' = Some l
    /\ Main.objects w' !! l = Some o
    /\ Main.category_results o !! py "home"
       = Some (Main.CategoryError (py "extraction failed"))
    /\ Main.total_errors o = 2.
Proof.
  intros answers E cats.
  destruct (Main.active_jobs (Scenario.submitted E cats) !! py "job-1")
    as [job|] eqn:Hsubmitted; [|vm_compute in Hsubmitted; discriminate].
  destruct (category_exception_is_recorded_not_fatal E (py "job-1")
               (py "pinterest-token,tag123") (Scenario.the_config cats)
               (replicate 32 x00) (Scenario.submitted E cats) job
               {| Bot.pinterest_token := py "pinterest-token";
                  Bot.amazon_tag := py "tag123" |}
               1 (py "home") (Exception (py "extraction failed")))
    as (w' & tr & job' & l & o & Hrun & Hjob & Hst & _ & Hres & Hobj & Hcat
        & _ & Herrs & _).
  - exact Hsubmitted.
  - vm_compute. reflexivity.
  - reflexivity.
  - reflexivity.
  - simpl. apply not_elem_of_nil.
  - exists w', tr, job', l, o. repeat (split; [assumption|]). exact Herrs.
Defined.

(** C5. Over the states a run of the task goes through (the state it
    starts from, the state after each write, the state it leaves), the
    [overall_progress] of the job never decreases, for a job submitted with
    the progress 0 of [start_automation]; and when the task has left the job
    [completed], its [overall_progress] is exactly 100. *)
Theorem overall_progress_never_decreases
    (E : Main.Collaborators) (job_id enc : pystr)
    (config : Main.AutomationConfigModel) (key : bytes) (w : Main.World)
    (job : Main.Job) :
  Main.active_jobs w !! job_id = Some job ->
  Main.overall_progress (Main.progress job) = 0%Q ->
  exists r w' tr,
    Main.run_automation_task E job_id enc config key w = (r, w', tr)
    /\ (forall (i k : nat) (wi wk : Main.World),
          (i <= k)%nat ->
          (w :: tr ++ [w']) !! i = Some wi ->
          (w :: tr ++ [w']) !! k = Some wk ->
          exists ji jk,
            Main.active_jobs wi !! job_id = Some ji
            /\ Main.active_jobs wk !! job_id = Some jk
            /\ (Main.overall_progress (Main.progress ji)
                <= Main.overall_progress (Main.progress jk))%Q)
    /\ (forall job',
          Main.active_jobs w' !! job_id = Some job' ->
          Main.status job' = Main.completed ->
          Main.overall_progress (Main.progress job') = 100%Q).
Proof.
  intros Hjob Hzero.
  assert (Hle0 : (Logic.percent job <= 0)%Q).
  { unfold Logic.percent. rewrite Hzero. apply Qle_refl. }
  pose proof (run_automation_task_wp Qle Qle_refl Qle_trans (fun _ _ H => H)
                job_id E config enc key w job
                (fun _ w' =>
                   forall job',
                     Main.active_jobs w' !! job_id = Some job' ->
                     Main.status job' = Main.completed ->
                     Main.overall_progress (Main.progress job') = 100%Q)
                Hjob Hle0) as Hwp.
  unfold Logic.wp in Hwp.
  destruct (Main.run_automation_task E job_id enc config key w)
    as [[r w'] tr].
  destruct Hwp as [Hend Hpath].
  - intros e w1 job1 _ Hjob1 Hst _ job' Hjob' Hdone.
    assert (job' = job1) as -> by congruence. congruence.
  - intros bot' w1 job1 l1 _ Hjob1 _ _ Hp _ _ job' Hjob' _.
    assert (job' = job1) as -> by congruence. exact Hp.
  - exists r, w', tr. split; [reflexivity|]. split; [|exact Hend].
    intros i k wi wk Hik Hi Hk.
    assert (Hwi : Logic.advances Qle job_id w wi).
    { apply (path_lookup Qle Qle_refl Qle_trans job_id tr w w' Hpath
               0%nat i w wi); [lia | reflexivity | exact Hi]. }
    destruct (Hwi job Hjob) as (ji & Hji & _).
    destruct (path_lookup Qle Qle_refl Qle_trans job_id tr w w' Hpath
                i k wi wk Hik Hi Hk ji Hji) as (jk & Hjk & Hle).
    by exists ji, jk.
Qed.

Lemma overall_progress_never_decreases_witness :
  let E := Scenario.collaborators (fun _ => Scenario.no_boards) in
  let cats := [py "electronics"; py "home"] in
  exists r w' tr,
    Main.run_automation_task E (py "job-1") (py "pinterest-token,tag123")
      (Scenario.the_config cats) (replicate 32 x00)
      (Scenario.submitted E cats) = (r, w', tr)
    /\ (forall (i k : nat) (wi wk : Main.World),
          (i <= k)%nat ->
          (Scenario.submitted E cats :: tr ++ [w']) !! i = Some wi ->
          (Scenario.submitted E cats :: tr ++ [w']) !! k = Some wk ->
          exists ji jk,
            Main.active_jobs wi !! py "job-1" = Some ji
            /\ Main.active_jobs wk !! py "job-1" = Some jk
            /\ (Main.overall_progress (Main.progress ji)
                <= Main.overall_progress (Main.progress jk))%Q)
    /\ (forall job',
          Main.active_jobs w' !! py "job-1" = Some job' ->
          Main.status job' = Main.completed ->
          Main.overall_progress (Main.progress job') = 100%Q).
Proof.
  intros E cats.
  destruct (Main.active_jobs (Scenario.submitted E cats) !! py "job-1")
    as [job|] eqn:Hsubmitted; [|vm_compute in Hsubmitted; discriminate].
  apply (overall_progress_never_decreases E (py "job-1")
           (py "pinterest-token,tag123") (Scenario.the_config cats)
           (replicate 32 x00) (Scenario.submitted E cats) job Hsubmitted).
  vm_compute in Hsubmitted. injection Hsubmitted as <-. reflexivity.
Defined.

(** C8 (as amended). When no boards are available for a category (the
    boards listing is empty and the task gives no board), the bot returns
    its initial results for it: the task records them as the category's
    result, a summary with zero products, pins and errors and no error
    field; the aggregate error total is the sum over the other calls, so
    nothing is added for this category; and the job is [completed], not
    failed. *)
Theorem no_boards_gives_empty_results
    (E : Main.Collaborators) (nets : nat -> Bot.Network)
    (job_id enc : pystr) (config : Main.AutomationConfigModel) (key : bytes)
    (w : Main.World) (job : Main.Job) (bot : Bot.Self) (k : nat)
    (category : pystr) :
  Main.bot_run_complete_automation E = Main.bot_on nets ->
  Main.active_jobs w !! job_id = Some job ->
  Logic.prepared_bot E enc key = Ok bot ->
  Main.categories config !! k = Some category ->
  Bot.boards (nets k) = [] ->
  category ∉ drop (S k) (Main.categories config) ->
  exists w' tr job' l o,
    Main.run_automation_task E job_id enc config key w = (Ok tt, w', tr)
    /\ Main.active_jobs w' !! job_id = Some job'
    /\ Main.status job' = Main.completed
    /\ Main.error job' = Main.error job
    /\ Main.results job' = Some l
    /\ Main.objects w' !! l = Some o
    /\ Main.category_results o !! category
       = Some (Main.CategoryResults Bot.initial_results)
    /\ Bot.errors Bot.initial_results = 0
    /\ Main.total_errors o
       = Logic.Zsum
           (Logic.counted_errors <$> delete k (Logic.answers E config bot)).
Proof.
  intros Hbot Hjob Hprep Hk Hboards Hlast.
  assert (Hans : Logic.answer E config bot k category
                 = Ok Bot.initial_results).
  { unfold Logic.answer. rewrite Hbot. unfold Main.bot_on.
    by rewrite run_complete_automation_no_boards. }
  destruct (completed_task_results E job_id enc config key w job bot Hjob Hprep)
    as (w' & tr & job' & l & Hrun & Hjob' & Hst & Herr & Hres & Hobj).
  destruct (aggregate_counts E config bot (Main.categories config) 0
              {| Main.total_products_found := 0; Main.total_pins_created := 0;
                 Main.total_errors := 0; Main.category_results := ∅ |})
    as (He & _).
  eexists w', tr, job', l, _.
  repeat (split; [eassumption|]).
  split.
  { rewrite (aggregate_last_occurrence E config bot _ 0 k category)
      by assumption.
    simpl. rewrite Hans. reflexivity. }
  split; [reflexivity|].
  rewrite He. simpl. symmetry.
  apply (Zsum_without_zero Logic.counted_errors _ k (Ok Bot.initial_results));
    [|reflexivity].
  unfold Logic.answers. rewrite list_lookup_imap, Hk. simpl.
  by rewrite Hans.
Qed.

Lemma no_boards_gives_empty_results_witness :
  let E := Scenario.collaborators (fun _ => Scenario.no_boards) in
  let cats := [py "electronics"] in
  exists w' tr job' l o,
    Main.run_automation_task E (py "job-1") (py "pinterest-token,tag123")
      (Scenario.the_config cats) (replicate 32 x00)
      (Scenario.submitted E cats) = (Ok tt, w', tr)
    /\ Main.active_jobs w' !! py "job-1" = Some job'
    /\ Main.status job' = Main.completed
    /\ Main.results job' = Some l
    /\ Main.objects w' !! l = Some o
    /\ Main.category_results o !! py "electronics"
       = Some (Main.CategoryResults Bot.initial_results).
Proof.
  intros E cats.
  destruct (Main.active_jobs (Scenario.submitted E cats) !! py "job-1")
    as [job|] eqn:Hsubmitted; [|vm_compute in Hsubmitted; discriminate].
  destruct (no_boards_gives_empty_results E (fun _ => Scenario.no_boards)
               (py "job-1") (py "pinterest-token,tag123")
               (Scenario.the_config cats) (replicate 32 x00)
               (Scenario.submitted E cats) job
               {| Bot.pinterest_token := py "pinterest-token";
                  Bot.amazon_tag := py "tag123" |}
               0 (py "electronics"))
    as (w' & tr & job' & l & o & Hrun & Hjob & Hst & _ & Hres & Hobj & Hcat
        & _).
  - reflexivity.
  - exact Hsubmitted.
  - vm_compute. reflexivity.
  - reflexivity.
  - reflexivity.
  - simpl. apply not_elem_of_nil.
  - exists w', tr, job', l, o. repeat (split; [assumption|]). exact Hcat.
Defined.

(** C8 (as stated) fails: with no boards for the only category of a job,
    the category's result is the bot's initial results and not an error,
    and the aggregate error total is 0. *)
Lemma no_boards_is_not_counted_as_error :
  let E := Scenario.collaborators (fun _ => Scenario.no_boards) in
  let w' :=
    Scenario.state_after
      (Main.run_background E (Scenario.submitted E [py "electronics"])) in
  Bot.boards Scenario.no_boards = []
  /\ Scenario.status_in w' (py "job-1") = Some Main.completed
  /\ (Scenario.results_in w' (py "job-1")
        ≫= fun o => Main.category_results o !! py "electronics")
     = Some (Main.CategoryResults Bot.initial_results)
  /\ (forall message,
        (Scenario.results_in w' (py "job-1")
           ≫= fun o => Main.category_results o !! py "electronics")
        <> Some (Main.CategoryError message))
  /\ Main.total_errors <$> Scenario.results_in w' (py "job-1") = Some 0.
Proof.
  intros E w'.
  assert (Hentry :
    (Scenario.results_in w' (py "job-1")
       ≫= fun o => Main.category_results o !! py "electronics")
    = Some (Main.CategoryResults Bot.initial_results))
    by (vm_compute; reflexivity).
  split; [reflexivity|]. split; [vm_compute; reflexivity|].
  split; [exact Hentry|]. split; [|vm_compute; reflexivity].
  intros message. rewrite Hentry. discriminate.
Qed.

(** C1 (the code at the failing input). A job is submitted and cancelled
    while still queued; the cancellation sets its status to [cancelled];
    when its background task then runs, the first write of the task sets
    the status to [running], and the task leaves the job [completed]. *)
Theorem cancelled_queued_job_still_runs :
  let E := Scenario.collaborators (fun _ => Scenario.no_boards) in
  let w1 := Scenario.submitted E [py "electronics"] in
  let w2 :=
    Scenario.state_after (Main.cancel_job (py "job-1") (py "session-1") w1) in
  let run := Main.run_background E w2 in
  Scenario.status_in w1 (py "job-1") = Some Main.queued
  /\ Scenario.status_in w2 (py "job-1") = Some Main.cancelled
  /\ (fun w => Scenario.status_in w (py "job-1")) <$> take 2 (Scenario.writes_of run)
     = [Some Main.cancelled; Some Main.running]
  /\ Scenario.status_in (Scenario.state_after run) (py "job-1")
     = Some Main.completed.
Proof. vm_compute. repeat split. Qed.

(** C2 (the code at the failing input). A job has run to [completed];
    [cancel_job] by its owner then overwrites the status with [cancelled]
    and changes [updated_at], whereas [end_session], which checks that the
    status is [queued] or [running], leaves the job as it is. A job
    cancelled while queued is likewise mutated by its task afterwards. *)
Theorem terminal_job_is_mutated_by_cancel :
  let E := Scenario.collaborators (fun _ => Scenario.no_boards) in
  let w1 := Scenario.submitted E [py "electronics"] in
  let w2 := Scenario.state_after (Main.run_background E w1) in
  let w3 :=
    Scenario.state_after (Main.cancel_job (py "job-1") (py "session-1") w2) in
  let w3' := Scenario.state_after (Main.end_session (py "session-1") w2) in
  Scenario.status_in w2 (py "job-1") = Some Main.completed
  /\ Scenario.status_in w3 (py "job-1") = Some Main.cancelled
  /\ Main.updated_at <$> Main.active_jobs w3 !! py "job-1"
     <> Main.updated_at <$> Main.active_jobs w2 !! py "job-1"
  /\ Main.active_jobs w3' !! py "job-1" = Main.active_jobs w2 !! py "job-1".
Proof.
  vm_compute. repeat split. discriminate.
Qed.

(* ===================================================================== *)
(** * Further properties                                                  *)
(* ===================================================================== *)

(** String literals stay folded in the proofs below. *)
Arguments PyStr.py : simpl never.

(* ===================================================================== *)
(** * More on the affiliate link                                          *)
(* ===================================================================== *)

Section LinkFacts.

Import Bot.








End LinkFacts.


(* ===================================================================== *)
(** * More on the pin content                                             *)
(* ===================================================================== *)

Section ContentFacts.

Import Bot.

Lemma shortened_title_length (product : Product) :
  (length (shortened_title product) <= 100)%nat.
Proof.
  unfold shortened_title.
  destruct (Z.ltb_spec 100 (len (default (py "Amazing Product") (title product))))
    as [Hlong|Hshort]; unfold len in *.
  - rewrite length_app, length_take.
    change (length (py "...")) with 3%nat. lia.
  - lia.
Qed.

Lemma random_choice_prefix_length (draw : nat) :
  (length (random_choice draw engaging_prefixes) <= 15)%nat.
Proof.
  unfold random_choice.
  assert (Hlt : (draw mod length engaging_prefixes < 5)%nat)
    by (apply Nat.mod_upper_bound; discriminate).
  destruct (draw mod length engaging_prefixes)%nat as [|[|[|[|[|n]]]]];
    simpl; lia.
Qed.

Lemma join_snoc (sep : pystr) (parts : list pystr) (a b : pystr) :
  exists pre, join sep (parts ++ [a; b]) = pre ++ a ++ sep ++ b.
Proof.
  induction parts as [|p parts [pre IH]].
  - exists []. reflexivity.
  - exists (p ++ sep ++ pre).
    change (join sep ((p :: parts) ++ [a; b]))
      with (join sep (p :: (parts ++ [a; b]))).
    destruct (parts ++ [a; b]) as [|q rest] eqn:Hrest.
    + by destruct parts.
    + change (join sep (p :: q :: rest)) with (p ++ sep ++ join sep (q :: rest)).
      rewrite IH. by rewrite <- !app_assoc.
Qed.

End ContentFacts.

(** X2. Whatever the product and the draw, the pin title has at most 100
    characters and ends with the (possibly shortened) product title; with
    no title at all it ends with ["Amazing Product"]. *)
Theorem pin_title_at_most_100 (draw : nat) (product : Bot.Product) :
  (length (Bot._generate_pin_title draw product) <= 100)%nat
  /\ (exists prefix,
        Bot._generate_pin_title draw product
        = prefix ++ Bot.shortened_title product
        /\ (prefix = [] \/ prefix ∈ Bot.engaging_prefixes))
  /\ (Bot.title product = None ->
      Bot.shortened_title product = py "Amazing Product").
Proof.
  pose proof (shortened_title_length product) as Hshort.
  pose proof (random_choice_prefix_length draw) as Hprefix.
  unfold Bot._generate_pin_title.
  destruct (Z.ltb_spec (len (Bot.shortened_title product)) 80) as [Hlt|Hge];
    unfold len in *.
  - split; [rewrite length_app; lia|]. split.
    + eexists. split; [reflexivity|]. right.
      unfold Bot.random_choice. apply list_elem_of_In, nth_In.
      apply Nat.mod_upper_bound. discriminate.
    + intros Hnone. unfold Bot.shortened_title. rewrite Hnone. reflexivity.
  - split; [exact Hshort|]. split.
    + exists []. split; [reflexivity | by left].
    + intros Hnone. unfold Bot.shortened_title. rewrite Hnone. reflexivity.
Qed.

(** X3. Whatever the product and the category, the pin description
    ends with the line of hashtags of the category (["#shopping #deals"]
    for an unknown category), an empty line and the affiliate disclosure. *)
Theorem pin_description_ends_with_disclosure (product : Bot.Product)
    (category : pystr) :
  let hashtags :=
    default [py "shopping"; py "deals"] (Bot.category_hashtags !! category) in
  exists before,
    Bot._generate_pin_description product category
    = before
      ++ (10%N :: join (py " ") (map (fun tag => py "#" ++ tag) (take 8 hashtags)))
      ++ [10%N]
      ++ (10%N :: 128226%N ::
          py " This pin contains affiliate links. I may earn a commission at no extra cost to you.").
Proof.
  intros hashtags. unfold Bot._generate_pin_description.
  match goal with
  | |- context [join _ (?p1 ++ ?p2 ++ ?p3 ++ ?p4 ++ [?h] ++ [?d])] =>
      destruct (join_snoc [10%N] (p1 ++ p2 ++ p3 ++ p4) h d) as [pre Hpre];
      replace (p1 ++ p2 ++ p3 ++ p4 ++ [h] ++ [d])
        with ((p1 ++ p2 ++ p3 ++ p4) ++ [h; d])
        by (rewrite <- !app_assoc; reflexivity)
  end.
  exists pre. exact Hpre.
Qed.

(* ===================================================================== *)
(** * More on the product search                                          *)
(* ===================================================================== *)

Section SearchFacts.

Import Bot BotLogic.

Lemma extract_mandatory (container : Container) (p : Product) :
  _extract_product_from_search container = Some p ->
  has_mandatory_fields p.
Proof.
  unfold _extract_product_from_search.
  destruct (c_title container) as [t|]; [|discriminate].
  destruct (c_url container) as [u|];
    [|by rewrite andb_false_r].
  destruct (c_asin container) as [a|];
    [|by rewrite andb_false_r].
  simpl.
  destruct t as [|t0 t]; [discriminate|].
  destruct u as [|u0 u]; [discriminate|].
  destruct a as [|a0 a]; [discriminate|]. simpl.
  destruct (c_previous_siblings container); [|discriminate].
  intros [= <-]. by exists (t0 :: t), (u0 :: u), (a0 :: a).
Qed.

Lemma extract_all_spec (containers : list Container) :
  (length (extract_all containers) <= length containers)%nat
  /\ Forall has_mandatory_fields (extract_all containers).
Proof.
  unfold extract_all. induction containers as [|c cs [IHl IHf]]; simpl.
  - split; [lia | constructor].
  - destruct (_extract_product_from_search c) as [p|] eqn:Hc; simpl.
    + split; [apply le_n_S; exact IHl|].
      constructor; [by eapply extract_mandatory | exact IHf].
    + split; [apply Nat.le_le_succ_r; exact IHl | exact IHf].
Qed.

Lemma search_amazon_spec (page : pystr -> option (list Container))
    (term : pystr) (quota : Z) :
  Forall has_mandatory_fields (_search_amazon_products page term quota)
  /\ (0 <= quota -> len (_search_amazon_products page term quota) <= quota).
Proof.
  unfold _search_amazon_products.
  destruct (page term) as [cs|]; [|split; [constructor | unfold len; simpl; lia]].
  destruct (extract_all_spec (slice_to quota cs)) as [Hl Hf].
  split; [exact Hf|]. intros Hq. unfold len.
  rewrite slice_to_nonneg in Hl |- * by exact Hq.
  rewrite length_take in Hl. lia.
Qed.

Lemma search_loop_spec (page : pystr -> option (list Container))
    (quota max_products : Z) (terms : list pystr) :
  forall products : list Product,
    (Forall has_mandatory_fields products ->
     Forall has_mandatory_fields
       (search_loop page terms quota max_products products))
    /\ (0 <= quota ->
        len (search_loop page terms quota max_products products)
        <= len products + len terms * quota).
Proof.
  induction terms as [|term rest IH]; intros products; simpl.
  - split; [done | unfold len; simpl; lia].
  - destruct (max_products <=? len products).
    + split; [done|]. intros Hq. unfold len. simpl. nia.
    + destruct (IH (products ++ _search_amazon_products page term quota))
        as [IHf IHl].
      destruct (search_amazon_spec page term quota) as [Hf Hl].
      split.
      * intros Hp. apply IHf, Forall_app. by split.
      * intros Hq. specialize (IHl Hq). specialize (Hl Hq).
        unfold len in *. rewrite length_app in IHl. simpl. nia.
Qed.

Lemma search_terms_not_empty (category : pystr) :
  (0 < length (search_terms_of category))%nat.
Proof.
  unfold search_terms_of.
  destruct (trending_categories !! category) as [terms|] eqn:Hterms;
    [|vm_compute; lia].
  apply elem_of_list_to_map_2 in Hterms. cbn [default].
  repeat (apply elem_of_cons in Hterms as [Hterms|Hterms];
          [injection Hterms as _ ->; vm_compute; lia|]).
  inversion Hterms.
Qed.

Lemma remove_duplicates_length (products : list Product) :
  (length (_remove_duplicate_products products) <= length products)%nat.
Proof.
  apply sublist_length.
  by destruct (remove_duplicates_from_spec products ∅) as [H _].
Qed.

(** A list of products with distinct non-empty ASINs outside [seen] is
    left as it is. *)
Lemma remove_duplicates_from_fixed (products : list Product) :
  forall seen : gset pystr,
    NoDup (map asin products) ->
    Forall (fun p => exists a, asin p = Some a /\ a <> [] /\ a ∉ seen)
      products ->
    remove_duplicates_from seen products = products.
Proof.
  induction products as [|p rest IH]; intros seen Hnd Hall; [reflexivity|].
  apply Forall_cons in Hall as [(a & Ha & Hne & Hfresh) Hall].
  simpl in *. rewrite Ha in *.
  apply NoDup_cons in Hnd as [Hhead Hnd].
  destruct a as [|a0 a]; [contradiction|]. simpl.
  rewrite bool_decide_eq_true_2 by exact Hfresh.
  f_equal. apply IH; [exact Hnd|].
  apply Forall_forall. intros q Hq.
  rewrite Forall_forall in Hall. destruct (Hall q Hq) as (b & Hb & Hbne & Hbs).
  exists b. repeat split; try assumption.
  intros [Heq%elem_of_singleton|Hin]%elem_of_union; [|contradiction].
  subst b. apply Hhead. rewrite <- Hb. by apply list_elem_of_fmap_2.
Qed.

(** No non-empty ASIN outside [seen] is lost. *)
Lemma remove_duplicates_from_complete (products : list Product) :
  forall (seen : gset pystr) (p : Product) (a : pystr),
    p ∈ products -> asin p = Some a -> a <> [] -> a ∉ seen ->
    exists q, q ∈ remove_duplicates_from seen products /\ asin q = Some a.
Proof.
  induction products as [|x rest IH]; intros seen p a Hp Ha Hne Hfresh;
    [inversion Hp|].
  simpl.
  destruct (decide (asin x = Some a)) as [Hx|Hx].
  - rewrite Hx. destruct a as [|a0 a]; [contradiction|]. simpl.
    rewrite bool_decide_eq_true_2 by exact Hfresh.
    exists x. split; [by left | exact Hx].
  - assert (Hrest : p ∈ rest).
    { apply elem_of_cons in Hp as [->|Hp]; [contradiction | exact Hp]. }
    destruct (asin x) as [b|] eqn:Hb.
    + destruct (truthy b && bool_decide (b ∉ seen)).
      * destruct (IH ({[b]} ∪ seen) p a Hrest Ha Hne) as (q & Hq & Hqa).
        { intros [Heq%elem_of_singleton|Hin]%elem_of_union;
            [congruence | contradiction]. }
        exists q. split; [by right | exact Hqa].
      * by apply (IH seen p a).
    + by apply (IH seen p a).
Qed.

End SearchFacts.

(** X4. For a maximum that is a count, the searches of
    [get_trending_products] deliver at most [max_products // n] products
    for each of the [n] search terms of the category, so the function
    returns at most [n * (max_products // n)] products (for a category of
    the allow-list, [3 * (max_products // 3)]: at most 3 for a maximum of
    5); the final cut [[:max_products]] then removes nothing. *)
Theorem get_trending_products_shortfall
    (search_page : pystr -> option (list Bot.Container))
    (category : pystr) (max_products : Z) :
  0 <= max_products ->
  let n := len (Bot.search_terms_of category) in
  let accumulated :=
    Bot.accumulated_products search_page category max_products in
  len accumulated <= n * (max_products / n)
  /\ n * (max_products / n) <= max_products
  /\ Bot.get_trending_products search_page category max_products
     = Bot._remove_duplicate_products accumulated
  /\ len (Bot.get_trending_products search_page category max_products)
     <= n * (max_products / n)
  /\ (category ∈ Main.valid_categories -> n = 3).
Proof.
  intros Hmax n accumulated.
  pose proof (search_terms_not_empty category) as Hn.
  assert (Hn' : 0 < n) by (unfold n, len; lia).
  assert (Hq : 0 <= max_products / n) by (apply Z.div_pos; lia).
  assert (Hacc : len accumulated <= n * (max_products / n)).
  { destruct (search_loop_spec search_page (max_products / n) max_products
                (Bot.search_terms_of category) []) as [_ Hl].
    specialize (Hl Hq). unfold accumulated, Bot.accumulated_products.
    fold n. unfold len in *. simpl in Hl. lia. }
  assert (Hle : n * (max_products / n) <= max_products)
    by (apply Z.mul_div_le; lia).
  pose proof (remove_duplicates_length accumulated) as Hdedup.
  assert (Hsame : Bot.get_trending_products search_page category max_products
                  = Bot._remove_duplicate_products accumulated).
  { unfold Bot.get_trending_products. fold accumulated.
    rewrite slice_to_nonneg by exact Hmax.
    apply take_ge. unfold len in *. lia. }
  split; [exact Hacc|]. split; [exact Hle|]. split; [exact Hsame|]. split.
  - rewrite Hsame. unfold len in *. lia.
  - intros Hcat. unfold n, len. by rewrite (search_terms_of_valid category Hcat).
Qed.

Lemma get_trending_products_shortfall_witness :
  let container := fun a : pystr =>
    {| Bot.c_title := Some (py "Lamp");
       Bot.c_url := Some (py "https://www.amazon.com/dp/" ++ a);
       Bot.c_asin := Some a;
       Bot.c_price := None; Bot.c_image_url := None; Bot.c_rating := None;
       Bot.c_previous_siblings := Some 0 |} in
  let page := fun term : pystr =>
    Some [container (term ++ py "1"); container (term ++ py "2");
          container (term ++ py "3")] in
  len (Bot.get_trending_products page (py "home") 5) <= 3 * (5 / 3)
  /\ len (Bot.get_trending_products page (py "home") 5) = 3.
Proof.
  intros container page.
  destruct (get_trending_products_shortfall page (py "home") 5)
    as (_ & _ & _ & H & _); [lia|].
  split; [exact H | reflexivity].
Defined.


(** X7. [_remove_duplicate_products] applied to its own result changes
    nothing, and it loses no ASIN: every non-empty ASIN of the input is the
    ASIN of a product of the result. *)
Theorem remove_duplicates_idempotent_and_complete
    (products : list Bot.Product) :
  Bot._remove_duplicate_products (Bot._remove_duplicate_products products)
  = Bot._remove_duplicate_products products
  /\ Forall
       (fun p =>
          forall a, Bot.asin p = Some a -> a <> [] ->
            exists q, q ∈ Bot._remove_duplicate_products products
                      /\ Bot.asin q = Some a)
       products.
Proof.
  destruct (remove_duplicates_from_spec products ∅) as (_ & Hnd & Hkept).
  split.
  - apply remove_duplicates_from_fixed; [exact Hnd|].
    apply Forall_forall. intros p Hp.
    destruct (Hkept p Hp) as (a & Ha & Hne & Hfresh & _). by exists a.
  - apply Forall_forall. intros p Hp a Ha Hne.
    by apply (remove_duplicates_from_complete products ∅ p a).
Qed.

(* ===================================================================== *)
(** * More on the per-category automation                                 *)
(* ===================================================================== *)

Section AutomationFacts.

Import Bot BotLogic.

Variable self : Self.
Variable net : Network.
Variable category board_id : pystr.




End AutomationFacts.



(* ===================================================================== *)
(** * Properties of the detail page extractors                            *)
(* ===================================================================== *)

Section DetailFacts.

Import DetailPage.

Lemma filter_sublist {A : Type} (f : A -> bool) (l : list A) :
  sublist (List.filter f l) l.
Proof.
  induction l as [|x l IH]; simpl; [constructor|].
  destruct (f x); [by apply sublist_skip | by apply sublist_cons].
Qed.

Lemma filter_all {A : Type} (f : A -> bool) (l : list A) :
  Forall (fun x => f x = true) (List.filter f l).
Proof.
  apply Forall_forall. intros x Hx.
  apply list_elem_of_In, filter_In in Hx. tauto.
Qed.

Lemma is_feature_text_spec (text : pystr) :
  is_feature_text text = true ->
  15 < len text /\ starts_with (py "Make sure") text = false.
Proof.
  unfold is_feature_text. intros H.
  apply andb_true_iff in H as [H Hprefix].
  apply andb_true_iff in H as [_ Hlen].
  apply Z.ltb_lt in Hlen. apply negb_true_iff in Hprefix. by split.
Qed.

Lemma price_holds_dollar (texts : list (option pystr)) (price : pystr) :
  _get_detailed_price texts = Some price -> contains (py "$") price = true.
Proof.
  induction texts as [|[text|] rest IH]; simpl; [discriminate| |exact IH].
  destruct (contains (py "$") text) eqn:Hd; [|exact IH].
  by intros [= <-].
Qed.

(** The loop keeps the images distinct and non-empty, and keeps the ones
    it starts with in front. *)
Lemma add_images_spec (srcs : list (option pystr)) :
  forall images : list pystr,
    NoDup images -> Forall (fun i => i <> []) images ->
    NoDup (add_images images srcs)
    /\ Forall (fun i => i <> []) (add_images images srcs)
    /\ images `prefix_of` add_images images srcs
    /\ forall i, i ∈ add_images images srcs ->
         i ∈ images \/ Some i ∈ srcs.
Proof.
  induction srcs as [|[src|] rest IH]; intros images Hnd Hne; simpl.
  - repeat split; try done. by left.
  - destruct (truthy src && bool_decide (src ∉ images)) eqn:Hcond.
    + apply andb_true_iff in Hcond as [Ht Hfresh].
      apply bool_decide_eq_true in Hfresh.
      destruct (IH (images ++ [src])) as (H1 & H2 & H3 & H4).
      { apply NoDup_app. repeat split; [exact Hnd | | apply NoDup_singleton].
        intros x Hx Hx'%list_elem_of_singleton. by subst. }
      { apply Forall_app. split; [exact Hne|].
        constructor; [by destruct src | constructor]. }
      repeat split; try done.
      * etrans; [|exact H3]. by apply prefix_app_r.
      * intros i Hi. destruct (H4 i Hi) as [Hin|Hin].
        -- apply elem_of_app in Hin as [Hin|Hin%list_elem_of_singleton];
             [by left | right; subst; by left].
        -- right. by right.
    + destruct (IH images Hnd Hne) as (H1 & H2 & H3 & H4).
      repeat split; try done.
      intros i Hi. destruct (H4 i Hi); [by left | right; by right].
  - destruct (IH images Hnd Hne) as (H1 & H2 & H3 & H4).
    repeat split; try done.
    intros i Hi. destruct (H4 i Hi); [by left | right; by right].
Qed.

End DetailFacts.

(** X8. The features [get_detailed_product_info] reports are at most 5
    bullets of the page, in the order of the page, each longer than 15
    characters and none starting with ["Make sure"]; a description taken
    from the product description has at most 200 characters; a price that
    is reported holds ['$'] and a rating that is reported holds
    ["out of 5"]. *)
Theorem detailed_features_are_filtered (page : DetailPage.Page) :
  exists d,
    DetailPage.get_detailed_product_info (Some page) = Some d
    /\ (length (Bot.d_features d) <= 5)%nat
    /\ sublist (Bot.d_features d) (DetailPage.pg_bullets page)
    /\ Forall (fun f => 15 < len f
                        /\ starts_with (py "Make sure") f = false)
         (Bot.d_features d)
    /\ (List.filter DetailPage.is_feature_text
          (take 3 (DetailPage.pg_bullets page)) = [] ->
        forall text, Bot.d_description d = Some text ->
          (length text <= 200)%nat)
    /\ (forall price, Bot.d_price d = Some price ->
          contains (py "$") price = true)
    /\ (forall rating, Bot.d_rating d = Some rating ->
          contains (py "out of 5") rating = true).
Proof.
  eexists. split; [reflexivity|]. simpl.
  unfold DetailPage._get_detailed_features.
  split; [rewrite length_take; lia|].
  split; [etrans; [apply sublist_take | apply filter_sublist]|].
  split.
  { eapply Forall_impl;
      [apply Forall_take, filter_all|]. intros f. apply is_feature_text_spec. }
  split.
  { intros Hnone text. unfold DetailPage._get_detailed_description.
    rewrite Hnone. destruct (DetailPage.pg_description page); [|discriminate].
    intros [= <-]. rewrite length_take. lia. }
  split; [apply price_holds_dollar|].
  intros rating. unfold DetailPage._get_detailed_rating.
  destruct (DetailPage.pg_rating page) as [r|]; [|discriminate].
  destruct (contains (py "out of 5") r) eqn:Hr; [|discriminate].
  by intros [= <-].
Qed.

(** X9. The images [_get_detailed_images] reports are at most 3, non-empty
    and pairwise distinct; each is the main image or one of the
    alternative images of the page; and a non-empty main image comes
    first. *)
Theorem detailed_images_are_distinct (main_src : option pystr)
    (alt_srcs : list (option pystr)) :
  let images := DetailPage._get_detailed_images main_src alt_srcs in
  (length images <= 3)%nat
  /\ NoDup images
  /\ Forall (fun i => i <> [] /\ (Some i = main_src \/ Some i ∈ alt_srcs))
       images
  /\ (forall src, main_src = Some src -> src <> [] ->
        images !! 0%nat = Some src).
Proof.
  intros images. unfold images, DetailPage._get_detailed_images.
  set (start := match main_src with
                | Some src => if truthy src then [src] else []
                | None => []
                end).
  assert (Hstart : NoDup start /\ Forall (fun i => i <> []) start
                   /\ forall i, i ∈ start -> Some i = main_src).
  { unfold start. destruct main_src as [[|c src]|]; simpl.
    - repeat split; [apply NoDup_nil_2 | constructor |].
      intros i Hi. inversion Hi.
    - repeat split; [apply NoDup_singleton | by repeat constructor |].
      intros i Hi%list_elem_of_singleton. by subst.
    - repeat split; [apply NoDup_nil_2 | constructor |].
      intros i Hi. inversion Hi. }
  destruct Hstart as (Hnd & Hne & Hmain).
  destruct (add_images_spec alt_srcs start Hnd Hne) as (H1 & H2 & H3 & H4).
  split; [rewrite length_take; lia|].
  split; [eapply sublist_NoDup; [exact H1 | apply sublist_take]|].
  split.
  - apply Forall_take, Forall_forall. intros i Hi. split.
    + rewrite Forall_forall in H2. by apply H2.
    + destruct (H4 i Hi) as [Hin|Hin]; [left; by apply Hmain | by right].
  - intros src -> Hsrc. destruct H3 as [more Hmore].
    destruct src as [|c src]; [contradiction|].
    subst start. simpl in Hmore |- *. rewrite Hmore. reflexivity.
Qed.

(* ===================================================================== *)
(** * More on the background task                                         *)
(* ===================================================================== *)

Section TaskOutcome.

Import Main Logic.

(** When no bot can be prepared, the task leaves the job [failed] with
    the message of the exception, and with the progress and the results
    it had. *)
Lemma failed_task_result (E : Collaborators) (job_id enc : pystr)
    (config : AutomationConfigModel) (key : bytes) (w : World) (job : Job)
    (e : exn) :
  active_jobs w !! job_id = Some job ->
  prepared_bot E enc key = Raise e ->
  exists w' tr job',
    run_automation_task E job_id enc config key w = (Ok tt, w', tr)
    /\ active_jobs w' !! job_id = Some job'
    /\ status job' = failed
    /\ error job' = Some (str_of_exn e)
    /\ progress job' = progress job
    /\ results job' = results job
    /\ objects w' = objects w.
Proof.
  intros Hjob Hprep.
  unfold run_automation_task, task_try, task_except, prepared_bot in *.
  unfold bind, attempt, job_write, get, write, now, lift, bind.
  rewrite Hjob. repeat (progress (simpl; rewrite ?lookup_insert_eq)).
  destruct (Vault.decrypt_data (crypto E) enc key) as [cj|e1]; simpl in Hprep.
  - destruct (json_loads E cj) as [cr|e2]; simpl in Hprep.
    + rewrite Hprep. repeat (progress (simpl; rewrite ?lookup_insert_eq)).
      eexists _, _, _. split; [reflexivity|]. simpl.
      rewrite lookup_insert_eq. by repeat split.
    + injection Hprep as ->.
      repeat (progress (simpl; rewrite ?lookup_insert_eq)).
      eexists _, _, _. split; [reflexivity|]. simpl.
      rewrite lookup_insert_eq. by repeat split.
  - injection Hprep as ->.
    repeat (progress (simpl; rewrite ?lookup_insert_eq)).
    eexists _, _, _. split; [reflexivity|]. simpl.
    rewrite lookup_insert_eq. by repeat split.
Qed.

End TaskOutcome.

(** X10. Run on an existing job, [run_automation_task] never raises and
    leaves the job in a terminal state: [failed], with the message of the
    exception as its error and its progress and results untouched, exactly
    when the credentials cannot be decrypted, parsed or given to a bot;
    [completed] at 100 percent, with results attached and its error
    untouched, otherwise. *)
Theorem task_ends_completed_or_failed
    (E : Main.Collaborators) (job_id enc : pystr)
    (config : Main.AutomationConfigModel) (key : bytes) (w : Main.World)
    (job : Main.Job) :
  Main.active_jobs w !! job_id = Some job ->
  exists w' tr job',
    Main.run_automation_task E job_id enc config key w = (Ok tt, w', tr)
    /\ Main.active_jobs w' !! job_id = Some job'
    /\ match Logic.prepared_bot E enc key with
       | Raise e =>
           Main.status job' = Main.failed
           /\ Main.error job' = Some (str_of_exn e)
           /\ Main.progress job' = Main.progress job
           /\ Main.results job' = Main.results job
       | Ok _ =>
           Main.status job' = Main.completed
           /\ Main.error job' = Main.error job
           /\ Main.overall_progress (Main.progress job') = 100%Q
           /\ exists l, Main.results job' = Some l
                        /\ is_Some (Main.objects w' !! l)
       end.
Proof.
  intros Hjob.
  destruct (Logic.prepared_bot E enc key) as [bot|e] eqn:Hprep.
  - pose proof (run_automation_task_wp Logic.any_order
                  (fun _ => I) (fun _ _ _ _ _ => I) (fun _ _ _ => I)
                  job_id E config enc key w job
                  (fun r w' =>
                     r = Ok tt /\ exists job',
                       Main.active_jobs w' !! job_id = Some job'
                       /\ Main.status job' = Main.completed
                       /\ Main.error job' = Main.error job
                       /\ Main.overall_progress (Main.progress job') = 100%Q
                       /\ exists l, Main.results job' = Some l
                                    /\ is_Some (Main.objects w' !! l))
                  Hjob I) as Hwp.
    unfold Logic.wp in Hwp.
    destruct (Main.run_automation_task E job_id enc config key w)
      as [[r w'] tr].
    destruct Hwp as [[-> (job' & H)] _].
    + intros e w1 job1 Hfail. congruence.
    + intros bot' w1 job1 l1 _ Hjob1 Hst Herr Hp Hres Hobj.
      split; [reflexivity|]. exists job1. repeat split; try assumption.
      exists l1. split; [exact Hres | by eexists].
    + exists w', tr, job'. split; [reflexivity|]. tauto.
  - destruct (failed_task_result E job_id enc config key w job e Hjob Hprep)
      as (w' & tr & job' & Hrun & Hjob' & Hst & Herr & Hp & Hres & _).
    exists w', tr, job'. by repeat split.
Qed.

Lemma task_ends_completed_or_failed_witness :
  let E := Scenario.collaborators (fun _ => Scenario.no_boards) in
  let cats := [py "electronics"] in
  exists w' tr job',
    Main.run_automation_task E (py "job-1") (py "not the credentials")
      (Scenario.the_config cats) (replicate 32 x00)
      (Scenario.submitted E cats) = (Ok tt, w', tr)
    /\ Main.active_jobs w' !! py "job-1" = Some job'
    /\ Main.status job' = Main.failed
    /\ Main.error job' = Some (py "Expecting value").
Proof.
  intros E cats.
  destruct (Main.active_jobs (Scenario.submitted E cats) !! py "job-1")
    as [job|] eqn:Hsubmitted; [|vm_compute in Hsubmitted; discriminate].
  destruct (task_ends_completed_or_failed E (py "job-1")
              (py "not the credentials") (Scenario.the_config cats)
              (replicate 32 x00) (Scenario.submitted E cats) job Hsubmitted)
    as (w' & tr & job' & Hrun & Hjob' & Hcase).
  exists w', tr, job'. split; [exact Hrun|]. split; [exact Hjob'|].
  change (Logic.prepared_bot E (py "not the credentials") (replicate 32 x00))
    with (@Raise Bot.Self (Exception (py "Expecting value"))) in Hcase.
  destruct Hcase as (Hst & Herr & _). by split.
Defined.

(** X11. Run for a job that is not in [active_jobs], the task creates no
    job and writes nothing: both the first write and the handler of the
    outer [try] raise [KeyError], which escapes the task. *)
Theorem task_without_job_raises
    (E : Main.Collaborators) (job_id enc : pystr)
    (config : Main.AutomationConfigModel) (key : bytes) (w : Main.World) :
  Main.active_jobs w !! job_id = None ->
  Main.run_automation_task E job_id enc config key w
  = (Raise (KeyError job_id), w, []).
Proof.
  intros Hnone.
  unfold Main.run_automation_task, Main.task_try, Main.task_except.
  unfold Main.job_write, Main.attempt, Main.get, Main.raise, Main.bind.
  cbv beta iota. rewrite Hnone. cbv beta iota. rewrite Hnone. reflexivity.
Qed.

Lemma task_without_job_raises_witness :
  Main.run_automation_task
    (Scenario.collaborators (fun _ => Scenario.no_boards))
    (py "job-9") (py "pinterest-token,tag123") (Scenario.the_config [])
    (replicate 32 x00) Scenario.one_session
  = (Raise (KeyError (py "job-9")), Scenario.one_session, []).
Proof.
  apply task_without_job_raises. reflexivity.
Defined.

(* ===================================================================== *)
(** * What the task leaves alone                                          *)
(* ===================================================================== *)

Section KeepsRules.

Import Main Frame.

Variable R : World -> World -> Prop.
Hypothesis R_refl : forall w, R w w.
Hypothesis R_trans : forall w1 w2 w3, R w1 w2 -> R w2 w3 -> R w1 w3.

Lemma keeps_ret {A : Type} (a : A) : keeps R (ret a).
Proof. intros w. simpl. split; [apply R_refl | constructor]. Qed.

Lemma keeps_raise {A : Type} (e : exn) : keeps R (@raise A e).
Proof. intros w. simpl. split; [apply R_refl | constructor]. Qed.

Lemma keeps_lift {A : Type} (o : outcome A) : keeps R (lift o).
Proof. intros w. simpl. split; [apply R_refl | constructor]. Qed.

Lemma keeps_write (f : World -> World) :
  (forall w, R w (f w)) -> keeps R (write f).
Proof. intros Hf w. simpl. split; [apply Hf | repeat constructor; apply Hf]. Qed.

Lemma keeps_now : (forall w, R w (tick w)) -> keeps R now.
Proof. intros Ht w. simpl. split; [apply Ht | constructor]. Qed.

Lemma keeps_bind {A B : Type} (m : M A) (k : A -> M B) :
  keeps R m -> (forall a, keeps R (k a)) -> keeps R (bind m k).
Proof.
  intros Hm Hk w. unfold bind. specialize (Hm w).
  destruct (m w) as [[[a|e] w1] t1]; [|exact Hm].
  destruct Hm as [Hw1 Ht1]. specialize (Hk a w1).
  destruct (k a w1) as [[r w2] t2]. destruct Hk as [Hw2 Ht2].
  split; [by eapply R_trans|].
  apply Forall_app. split; [exact Ht1|].
  eapply Forall_impl; [exact Ht2|]. intros x Hx. by eapply R_trans.
Qed.

(** A computation that starts by reading the state. *)
Lemma keeps_get {B : Type} (k : World -> M B) :
  (forall w, keeps R (k w)) -> keeps R (bind get k).
Proof. intros Hk. apply keeps_bind; [|exact Hk]. intros w. simpl.
  split; [apply R_refl | constructor]. Qed.

Lemma keeps_attempt {A : Type} (m : M A) : keeps R m -> keeps R (attempt m).
Proof.
  intros Hm w. unfold attempt. specialize (Hm w).
  by destruct (m w) as [[r w1] t1].
Qed.

End KeepsRules.

Section TaskFrame.

Import Main Frame.

Variable job_id : pystr.

Lemma same_elsewhere_refl (w : World) : same_elsewhere job_id w w.
Proof. by repeat split. Qed.

Lemma same_elsewhere_trans (w1 w2 w3 : World) :
  same_elsewhere job_id w1 w2 -> same_elsewhere job_id w2 w3 ->
  same_elsewhere job_id w1 w3.
Proof.
  intros (K1 & B1 & J1) (K2 & B2 & J2).
  split; [congruence|]. split; [congruence|].
  intros j Hj. rewrite J2, J1 by exact Hj. reflexivity.
Qed.

Abbreviation keeps_rest := (keeps (same_elsewhere job_id)).

Lemma keeps_rest_bind {A B : Type} (m : M A) (k : A -> M B) :
  keeps_rest m -> (forall a, keeps_rest (k a)) -> keeps_rest (bind m k).
Proof. apply keeps_bind, same_elsewhere_trans. Qed.

Lemma keeps_rest_job_write (f : Job -> Job) : keeps_rest (job_write job_id f).
Proof.
  unfold job_write.
  apply (keeps_get _ same_elsewhere_refl same_elsewhere_trans).
  intros w. destruct (active_jobs w !! job_id) as [job|].
  - apply keeps_write. intros w0. repeat split. intros j Hj. simpl.
    by rewrite lookup_insert_ne.
  - apply keeps_raise, same_elsewhere_refl.
Qed.

Lemma keeps_rest_obj_write (l : nat) (f : OverallResults -> OverallResults) :
  keeps_rest (obj_write l f).
Proof. apply keeps_write. intros w. by repeat split. Qed.

Lemma keeps_rest_now : keeps_rest now.
Proof. apply keeps_now. intros w. by repeat split. Qed.

Lemma keeps_rest_alloc (o : OverallResults) : keeps_rest (alloc o).
Proof.
  unfold alloc.
  apply (keeps_get _ same_elsewhere_refl same_elsewhere_trans).
  intros w. apply keeps_rest_bind.
  - apply keeps_write. intros w0. by repeat split.
  - intros _. apply keeps_ret, same_elsewhere_refl.
Qed.

Variable E : Collaborators.
Variable config : AutomationConfigModel.

Lemma keeps_rest_category_except (l : nat) (category : pystr) (e : exn) :
  keeps_rest (category_except l category e).
Proof.
  unfold category_except. apply keeps_rest_bind;
    [apply keeps_rest_obj_write | intros _; apply keeps_rest_obj_write].
Qed.

Lemma keeps_rest_category_loop (bot : Bot.Self) (l : nat) (total : Z)
    (cats : list pystr) :
  forall (i : nat) (c : Z),
    keeps_rest (category_loop E job_id config bot l total i cats c).
Proof.
  induction cats as [|category rest IH]; intros i c; simpl.
  - apply keeps_ret, same_elsewhere_refl.
  - apply keeps_rest_bind.
    + apply keeps_attempt. unfold category_try_first.
      apply keeps_rest_bind.
      { destruct (total =? 0);
          [apply keeps_raise | apply keeps_ret]; apply same_elsewhere_refl. }
      intros percent. apply keeps_rest_bind; [apply keeps_rest_job_write|].
      intros _. apply keeps_rest_bind;
        [apply keeps_lift, same_elsewhere_refl|].
      intros results.
      repeat (apply keeps_rest_bind; [apply keeps_rest_obj_write | intros _]).
      apply keeps_rest_obj_write.
    + intros [[]|e].
      * apply keeps_rest_bind.
        { apply keeps_attempt. unfold category_try_rest.
          apply keeps_rest_bind; [apply keeps_rest_job_write | intros _].
          apply keeps_rest_bind; [apply keeps_rest_now | intros t].
          apply keeps_rest_job_write. }
        intros r'. apply keeps_rest_bind; [|intros _; apply IH].
        destruct r' as [[]|e];
          [apply keeps_ret, same_elsewhere_refl
          | apply keeps_rest_category_except].
      * apply keeps_rest_bind;
          [apply keeps_rest_category_except | intros _; apply IH].
Qed.

(** The whole task leaves the rest of the state alone. *)
Lemma run_automation_task_keeps_rest (enc : pystr) (key : bytes) :
  keeps_rest (run_automation_task E job_id enc config key).
Proof.
  unfold run_automation_task.
  apply keeps_rest_bind.
  - apply keeps_attempt. unfold task_try.
    apply keeps_rest_bind; [apply keeps_rest_job_write | intros _].
    apply keeps_rest_bind; [apply keeps_rest_now | intros t].
    apply keeps_rest_bind; [apply keeps_rest_job_write | intros _].
    apply keeps_rest_bind; [apply keeps_lift, same_elsewhere_refl | intros cj].
    apply keeps_rest_bind; [apply keeps_lift, same_elsewhere_refl | intros cr].
    apply keeps_rest_bind; [apply keeps_lift, same_elsewhere_refl | intros bot].
    apply keeps_rest_bind; [apply keeps_rest_alloc | intros l].
    apply keeps_rest_bind; [apply keeps_rest_category_loop | intros c].
    apply keeps_rest_bind; [apply keeps_rest_job_write | intros _].
    apply keeps_rest_bind; [apply keeps_rest_job_write | intros _].
    apply keeps_rest_bind; [apply keeps_rest_job_write | intros _].
    apply keeps_rest_bind; [apply keeps_rest_now | intros t'].
    apply keeps_rest_job_write.
  - intros [[]|e]; [apply keeps_ret, same_elsewhere_refl|].
    unfold task_except.
    apply keeps_rest_bind; [apply keeps_rest_job_write | intros _].
    apply keeps_rest_bind; [apply keeps_rest_job_write | intros _].
    apply keeps_rest_bind; [apply keeps_rest_now | intros t].
    apply keeps_rest_job_write.
Qed.

End TaskFrame.

(** X12. A run of the task of a job touches nothing but that job and the
    task's own results object: in every state it writes and in the state
    it leaves, the sessions, the queue of tasks and every other job are
    as they were when it started. *)
Theorem task_leaves_other_jobs_alone
    (E : Main.Collaborators) (job_id enc : pystr)
    (config : Main.AutomationConfigModel) (key : bytes) :
  Frame.keeps (Frame.same_elsewhere job_id)
    (Main.run_automation_task E job_id enc config key).
Proof.
  apply run_automation_task_keeps_rest.
Qed.

(* ===================================================================== *)
(** * The task with the repository's bot                                  *)
(* ===================================================================== *)

Section RepositoryBot.

Import Main Logic BotLogic.

Variable E : Collaborators.
Variable nets : nat -> Bot.Network.
Hypothesis repository_bot : bot_run_complete_automation E = bot_on nets.

Variable config : AutomationConfigModel.
Variable bot : Bot.Self.



End RepositoryBot.



(* ===================================================================== *)
(** * The routes                                                          *)
(* ===================================================================== *)

(** X14. [cancel_job] changes the state only for a known session that owns
    the job: then it answers ["Job cancelled successfully"] and replaces
    the job by the same job with status [cancelled] and a new
    [updated_at], whatever its status was, leaving the sessions and all
    other jobs as they are. For an unknown session it raises 401, for an
    unknown job 404, for the job of another session 403, and in these
    cases it writes nothing. *)
Theorem cancel_job_only_by_owner (job_id session : pystr) (w : Main.World) :
  match Main.cancel_job job_id session w with
  | (r, w', tr) =>
      match Main.encryption_keys w !! session, Main.active_jobs w !! job_id with
      | None, _ =>
          r = Raise (HTTPException 401 (py "Invalid session"))
          /\ w' = w /\ tr = []
      | Some _, None =>
          r = Raise (HTTPException 404 (py "Job not found"))
          /\ w' = w /\ tr = []
      | Some _, Some job =>
          if bool_decide (Main.session_id job = session)
          then
            r = Ok (py "Job cancelled successfully")
            /\ Main.encryption_keys w' = Main.encryption_keys w
            /\ Main.active_jobs w'
               = <[job_id := Frame.cancelled_at (Main.clock w) job]>
                   (Main.active_jobs w)
          else
            r = Raise (HTTPException 403 (py "Access denied"))
            /\ w' = w /\ tr = []
      end
  end.
Proof.
  unfold Main.cancel_job, Main.verify_session.
  unfold Main.job_write, Main.bind, Main.get, Main.raise, Main.ret,
    Main.write, Main.now.
  cbv beta iota.
  destruct (Main.encryption_keys w !! session) as [entry|]; [|by repeat split].
  cbv beta iota.
  destruct (Main.active_jobs w !! job_id) as [job|] eqn:Hjob;
    [|by repeat split].
  destruct (bool_decide (Main.session_id job = session)); [|by repeat split].
  cbv beta iota. rewrite Hjob. simpl. rewrite lookup_insert_eq. simpl.
  repeat split. by rewrite insert_insert_eq.
Qed.

Section EndSession.

Import Main Frame.

Variable session : pystr.

(** What the loop makes of a job visited in the state it finds. *)
Lemma end_session_job_spec (job_id : pystr) (w : World) (job : Job) :
  active_jobs w !! job_id = Some job ->
  exists w' tr,
    end_session_job session job_id w = (Ok tt, w', tr)
    /\ encryption_keys w' = encryption_keys w
    /\ active_jobs w'
       = if bool_decide (session_id job = session)
            && negb (terminal (status job))
         then <[job_id := cancelled_at (clock w) job]> (active_jobs w)
         else active_jobs w.
Proof.
  intros Hjob. unfold end_session_job.
  unfold job_write, bind, get, raise, ret, write, now.
  cbv beta iota. rewrite Hjob.
  destruct (bool_decide (session_id job = session)); simpl;
    [|by eexists _, _].
  destruct (status job) eqn:Hst; simpl;
    try (by eexists _, _);
    rewrite Hjob; simpl; rewrite lookup_insert_eq; simpl;
    eexists _, _; (split; [reflexivity|]); simpl;
    (split; [reflexivity|]); rewrite insert_insert_eq;
    reflexivity.
Qed.

Lemma end_session_loop_spec (job_ids : list pystr) :
  forall w : World,
    NoDup job_ids ->
    Forall (fun j => is_Some (active_jobs w !! j)) job_ids ->
    exists w' tr,
      end_session_loop session job_ids w = (Ok tt, w', tr)
      /\ encryption_keys w' = encryption_keys w
      /\ (forall j, active_jobs w !! j = None -> active_jobs w' !! j = None)
      /\ forall j job,
           active_jobs w !! j = Some job ->
           exists job',
             active_jobs w' !! j = Some job'
             /\ if bool_decide (j ∈ job_ids)
                   && bool_decide (session_id job = session)
                   && negb (terminal (status job))
                then exists t, job' = cancelled_at t job
                else job' = job.
Proof.
  induction job_ids as [|job_id rest IH]; intros w Hnd Hall.
  - exists w, []. repeat split; try done.
    intros j job Hjob. exists job. split; [exact Hjob|].
    rewrite bool_decide_eq_false_2; [done | apply not_elem_of_nil].
  - apply NoDup_cons in Hnd as [Hhead Hnd].
    apply Forall_cons in Hall as [[job0 Hjob0] Hall].
    destruct (end_session_job_spec job_id w job0 Hjob0)
      as (w1 & tr1 & Hstep & Hkeys1 & Hjobs1).
    assert (Hother : forall j, j <> job_id ->
              active_jobs w1 !! j = active_jobs w !! j).
    { intros j Hj. rewrite Hjobs1.
      destruct (bool_decide (session_id job0 = session)
                && negb (terminal (status job0)));
        [by rewrite lookup_insert_ne | reflexivity]. }
    destruct (IH w1 Hnd) as (w' & tr & Hloop & Hkeys & Hnone & Hsome).
    { apply Forall_forall. intros j Hj.
      rewrite Forall_forall in Hall. rewrite Hother; [by apply Hall|].
      intros ->. contradiction. }
    exists w', (tr1 ++ tr). split.
    { simpl. unfold bind. rewrite Hstep, Hloop. reflexivity. }
    split; [congruence|]. split.
    { intros j Hj. apply Hnone.
      rewrite Hother; [exact Hj | congruence]. }
    intros j job Hjob.
    destruct (decide (j = job_id)) as [->|Hne].
    + assert (job = job0) as -> by congruence.
      rewrite (bool_decide_eq_true_2 (job_id ∈ job_id :: rest)) by (by left).
      simpl.
      destruct (bool_decide (session_id job0 = session)
                && negb (terminal (status job0))) eqn:Hcancel.
      * destruct (Hsome job_id (cancelled_at (clock w) job0))
          as (job' & Hjob' & Hcase).
        { rewrite Hjobs1. apply lookup_insert_eq. }
        rewrite (bool_decide_eq_false_2 (job_id ∈ rest)) in Hcase
          by exact Hhead.
        simpl in Hcase. subst job'.
        exists (cancelled_at (clock w) job0). split; [exact Hjob'|].
        by exists (clock w).
      * destruct (Hsome job_id job0) as (job' & Hjob' & Hcase).
        { by rewrite Hjobs1. }
        rewrite (bool_decide_eq_false_2 (job_id ∈ rest)) in Hcase
          by exact Hhead.
        simpl in Hcase. subst job'. by exists job0.
    + destruct (Hsome j job) as (job' & Hjob' & Hcase).
      { by rewrite Hother. }
      exists job'. split; [exact Hjob'|].
      assert (Hiff : bool_decide (j ∈ job_id :: rest)
                     = bool_decide (j ∈ rest)).
      { apply bool_decide_ext. rewrite elem_of_cons. tauto. }
      by rewrite Hiff.
Qed.

End EndSession.

(** X15. [end_session] of a known session removes the session's key and
    cancels exactly the jobs of that session that are [queued] or
    [running]: each becomes the same job with status [cancelled] and a new
    [updated_at]; every terminal job and every job of another session is
    left as it is, and no job is added or removed. For an unknown session
    it raises 401 and writes nothing. *)
Theorem end_session_cancels_open_jobs (session : pystr) (w : Main.World) :
  match Main.encryption_keys w !! session with
  | None =>
      Main.end_session session w
      = (Raise (HTTPException 401 (py "Invalid session")), w, [])
  | Some _ =>
      exists w' tr,
        Main.end_session session w
        = (Ok (py "Session ended successfully"), w', tr)
        /\ Main.encryption_keys w' = delete session (Main.encryption_keys w)
        /\ (forall j, Main.active_jobs w !! j = None ->
              Main.active_jobs w' !! j = None)
        /\ forall j job,
             Main.active_jobs w !! j = Some job ->
             exists job',
               Main.active_jobs w' !! j = Some job'
               /\ if bool_decide (Main.session_id job = session)
                     && negb (Frame.terminal (Main.status job))
                  then exists t, job' = Frame.cancelled_at t job
                  else job' = job
  end.
Proof.
  unfold Main.end_session, Main.verify_session.
  destruct (Main.encryption_keys w !! session) as [entry|] eqn:Hkey.
  - set (w1 := Main.with_encryption_keys (delete session) w).
    destruct (end_session_loop_spec session
                (map fst (map_to_list (Main.active_jobs w1))) w1)
      as (w' & tr & Hloop & Hkeys & Hnone & Hsome).
    { apply NoDup_fst_map_to_list. }
    { apply Forall_forall. intros j Hj.
      apply list_elem_of_fmap in Hj as ([j' job] & -> & Hin).
      apply elem_of_map_to_list in Hin. by exists job. }
    exists w', (w1 :: tr). split.
    { unfold Main.bind, Main.get, Main.attempt, Main.write, Main.ret.
      cbv beta iota. rewrite Hkey. cbv beta iota.
      fold w1. rewrite Hloop. simpl. by rewrite app_nil_r. }
    split; [exact Hkeys|]. split; [exact Hnone|].
    intros j job Hjob. destruct (Hsome j job Hjob) as (job' & Hjob' & Hcase).
    exists job'. split; [exact Hjob'|].
    rewrite bool_decide_eq_true_2 in Hcase; [exact Hcase|].
    apply list_elem_of_fmap. exists (j, job). split; [reflexivity|].
    by apply elem_of_map_to_list.
  - unfold Main.bind, Main.get, Main.raise. cbv beta iota.
    rewrite Hkey. reflexivity.
Qed.

Section StartAutomation.

Import Main Logic.

Variable E : Collaborators.
Hypothesis laws : Vault.lawful (crypto E).

(** The job [start_automation] creates. *)
Lemma start_automation_spec (request : AutomationRequestModel)
    (session job_id : pystr) (enc_now : Z) (iv : bytes) (w : World)
    (entry : SessionEntry) (b : bytes) :
  encryption_keys w !! session = Some entry ->
  Vault.fernet_new (crypto E) (key entry) = Ok tt ->
  Vault.str_encode (crypto E)
    (json_dumps E {| cr_pinterest_token := rq_pinterest_token request;
                     cr_amazon_tag := rq_amazon_tag request |}) = Ok b ->
  exists c w' tr,
    start_automation E request session job_id enc_now iv w
    = (Ok (job_id, queued), w', tr)
    /\ Vault.decrypt_data (crypto E) c (key entry)
       = Ok (json_dumps E {| cr_pinterest_token := rq_pinterest_token request;
                             cr_amazon_tag := rq_amazon_tag request |})
    /\ active_jobs w'
       = <[job_id :=
             {| jid := job_id; status := queued;
                progress := {| current_category := None;
                               completed_categories := None;
                               total_categories := None;
                               overall_progress := 0 |};
                created_at := clock w; updated_at := S (clock w);
                session_id := session; config := rq_config request;
                results := None; error := None |}]> (active_jobs w)
    /\ background w'
       = background w
         ++ [{| t_job_id := job_id; t_encrypted_credentials := c;
                t_config := rq_config request;
                t_encryption_key := key entry |}]
    /\ encryption_keys w' = encryption_keys w
    /\ objects w' = objects w.
Proof.
  intros Hkey Hnew Henc.
  destruct (encrypt_then_decrypt (crypto E) laws enc_now iv _ b (key entry)
              Hnew Henc) as (c & Hc & Hback).
  exists c. unfold start_automation, verify_session.
  unfold bind, attempt, get, raise, ret, write, now, lift.
  cbv beta iota. rewrite Hkey. cbv beta iota. rewrite Hkey. rewrite Hc.
  simpl. eexists _, _. split; [reflexivity|]. by repeat split.
Qed.

End StartAutomation.

(** X16. For a known session whose key [Fernet] accepts, and credentials
    that can be encoded, [start_automation] answers with the job id and
    [queued]; it adds exactly one job, with status [queued], progress 0,
    the session as owner, the configuration of the request and neither
    results nor error, and appends exactly one task for it; the
    credentials handed to the task decrypt under the session key to the
    credentials of the request; the sessions are left as they are. *)
Theorem start_automation_creates_queued_job
    (E : Main.Collaborators) (request : Main.AutomationRequestModel)
    (session job_id : pystr) (enc_now : Z) (iv : bytes) (w : Main.World)
    (entry : Main.SessionEntry) (b : bytes) :
  Vault.lawful (Main.crypto E) ->
  Main.encryption_keys w !! session = Some entry ->
  Vault.fernet_new (Main.crypto E) (Main.key entry) = Ok tt ->
  Vault.str_encode (Main.crypto E)
    (Main.json_dumps E
       {| Main.cr_pinterest_token := Main.rq_pinterest_token request;
          Main.cr_amazon_tag := Main.rq_amazon_tag request |}) = Ok b ->
  exists c w' tr job,
    Main.start_automation E request session job_id enc_now iv w
    = (Ok (job_id, Main.queued), w', tr)
    /\ Main.active_jobs w' = <[job_id := job]> (Main.active_jobs w)
    /\ Main.status job = Main.queued
    /\ Main.overall_progress (Main.progress job) = 0%Q
    /\ Main.session_id job = session
    /\ Main.config job = Main.rq_config request
    /\ Main.results job = None
    /\ Main.error job = None
    /\ Main.background w'
       = Main.background w
         ++ [{| Main.t_job_id := job_id; Main.t_encrypted_credentials := c;
                Main.t_config := Main.rq_config request;
                Main.t_encryption_key := Main.key entry |}]
    /\ Vault.decrypt_data (Main.crypto E) c (Main.key entry)
       = Ok (Main.json_dumps E
               {| Main.cr_pinterest_token := Main.rq_pinterest_token request;
                  Main.cr_amazon_tag := Main.rq_amazon_tag request |})
    /\ Main.encryption_keys w' = Main.encryption_keys w.
Proof.
  intros laws Hkey Hnew Henc.
  destruct (start_automation_spec E laws request session job_id enc_now iv w
              entry b Hkey Hnew Henc)
    as (c & w' & tr & Hrun & Hback & Hjobs & Hqueue & Hkeys & _).
  eexists c, w', tr, _. split; [exact Hrun|]. split; [exact Hjobs|].
  by repeat split.
Qed.

Lemma start_automation_creates_queued_job_witness :
  let E := Scenario.collaborators (fun _ => Scenario.no_boards) in
  exists c w' tr job,
    Main.start_automation E (Scenario.the_request [py "home"])
      (py "session-1") (py "job-1") 0 [] Scenario.one_session
    = (Ok (py "job-1", Main.queued), w', tr)
    /\ Main.active_jobs w' !! py "job-1" = Some job
    /\ Main.status job = Main.queued
    /\ Vault.decrypt_data Scenario.plain_primitives c (replicate 32 x00)
       = Ok (py "pinterest-token,tag123").
Proof.
  intros E.
  destruct (Main.encryption_keys Scenario.one_session !! py "session-1")
    as [entry|] eqn:Hkey; [|vm_compute in Hkey; discriminate].
  assert (Hentry : Main.key entry = replicate 32 x00).
  { vm_compute in Hkey. by injection Hkey as <-. }
  destruct (start_automation_creates_queued_job E
              (Scenario.the_request [py "home"]) (py "session-1")
              (py "job-1") 0 [] Scenario.one_session entry
              (map (fun n => default x00 (Byte.of_N n))
                 (py "pinterest-token,tag123")))
    as (c & w' & tr & job & Hrun & Hjobs & Hst & _ & _ & _ & _ & _ & _
        & Hback & _).
  - exact plain_primitives_lawful.
  - exact Hkey.
  - rewrite Hentry. reflexivity.
  - reflexivity.
  - exists c, w', tr, job. split; [exact Hrun|]. split.
    + rewrite Hjobs. apply lookup_insert_eq.
    + split; [exact Hst|]. rewrite <- Hentry. exact Hback.
Defined.

(** X17. Submitting and running compose: under the conditions of
    [start_automation] above, with JSON that parses back to the
    credentials written and a bot that can be constructed, a job submitted
    to an empty queue and then run by the background task ends
    [completed], with results attached, without an error, and the queue
    is empty again: the task always decrypts what [start_automation]
    encrypted. *)
Theorem submitted_job_completes
    (E : Main.Collaborators) (request : Main.AutomationRequestModel)
    (session job_id : pystr) (enc_now : Z) (iv : bytes) (w : Main.World)
    (entry : Main.SessionEntry) (b : bytes) (bot : Bot.Self) :
  Vault.lawful (Main.crypto E) ->
  Main.encryption_keys w !! session = Some entry ->
  Vault.fernet_new (Main.crypto E) (Main.key entry) = Ok tt ->
  Vault.str_encode (Main.crypto E)
    (Main.json_dumps E
       {| Main.cr_pinterest_token := Main.rq_pinterest_token request;
          Main.cr_amazon_tag := Main.rq_amazon_tag request |}) = Ok b ->
  Main.json_loads E
    (Main.json_dumps E
       {| Main.cr_pinterest_token := Main.rq_pinterest_token request;
          Main.cr_amazon_tag := Main.rq_amazon_tag request |})
  = Ok {| Main.cr_pinterest_token := Main.rq_pinterest_token request;
          Main.cr_amazon_tag := Main.rq_amazon_tag request |} ->
  Main.new_bot E (Main.rq_pinterest_token request)
    (Main.rq_amazon_tag request) = Ok bot ->
  Main.background w = [] ->
  exists w1 tr1 w2 tr2 job' l,
    Main.start_automation E request session job_id enc_now iv w
    = (Ok (job_id, Main.queued), w1, tr1)
    /\ Main.run_background E w1 = (Ok tt, w2, tr2)
    /\ Main.active_jobs w2 !! job_id = Some job'
    /\ Main.status job' = Main.completed
    /\ Main.error job' = None
    /\ Main.results job' = Some l
    /\ is_Some (Main.objects w2 !! l)
    /\ Main.background w2 = [].
Proof.
  intros laws Hkey Hnew Henc Hjson Hbot Hempty.
  destruct (start_automation_spec E laws request session job_id enc_now iv w
              entry b Hkey Hnew Henc)
    as (c & w1 & tr1 & Hstart & Hback & Hjobs & Hqueue & Hkeys & _).
  rewrite Hempty in Hqueue. simpl in Hqueue.
  set (w1' := Main.with_background (fun _ => []) w1).
  assert (Hprep : Logic.prepared_bot E c (Main.key entry) = Ok bot).
  { unfold Logic.prepared_bot. rewrite Hback. simpl. rewrite Hjson. simpl.
    exact Hbot. }
  assert (Hjob1 : exists j, Main.active_jobs w1' !! job_id = Some j
                            /\ Main.error j = None).
  { eexists. split;
      [unfold w1'; simpl; rewrite Hjobs; apply lookup_insert_eq
      | reflexivity]. }
  destruct Hjob1 as (j & Hj & Hjerr).
  destruct (completed_task_results E job_id c (Main.rq_config request)
              (Main.key entry) w1' j bot Hj Hprep)
    as (w2 & tr2 & job' & l & Hrun & Hjob' & Hst & Herr & Hres & Hobj).
  pose proof (run_automation_task_keeps_rest job_id E (Main.rq_config request)
                c (Main.key entry) w1') as Hrest.
  rewrite Hrun in Hrest. destruct Hrest as [(_ & Hqueue2 & _) _].
  exists w1, tr1, w2, (w1' :: tr2), job', l.
  split; [exact Hstart|]. split.
  { unfold Main.run_background, Main.bind, Main.get, Main.write.
    cbv beta iota. rewrite Hqueue. cbv beta iota.
    cbn [Main.t_job_id Main.t_encrypted_credentials Main.t_config
         Main.t_encryption_key].
    fold w1'. rewrite Hrun. reflexivity. }
  split; [exact Hjob'|]. split; [exact Hst|]. split; [congruence|].
  split; [exact Hres|]. split; [by eexists|].
  exact Hqueue2.
Qed.

Lemma submitted_job_completes_witness :
  let E := Scenario.collaborators (fun _ => Scenario.no_boards) in
  exists w1 tr1 w2 tr2 job' l,
    Main.start_automation E (Scenario.the_request [py "home"])
      (py "session-1") (py "job-1") 0 [] Scenario.one_session
    = (Ok (py "job-1", Main.queued), w1, tr1)
    /\ Main.run_background E w1 = (Ok tt, w2, tr2)
    /\ Main.active_jobs w2 !! py "job-1" = Some job'
    /\ Main.status job' = Main.completed
    /\ Main.results job' = Some l.
Proof.
  intros E.
  destruct (Main.encryption_keys Scenario.one_session !! py "session-1")
    as [entry|] eqn:Hkey; [|vm_compute in Hkey; discriminate].
  assert (Hentry : Main.key entry = replicate 32 x00).
  { vm_compute in Hkey. by injection Hkey as <-. }
  destruct (submitted_job_completes E (Scenario.the_request [py "home"])
              (py "session-1") (py "job-1") 0 [] Scenario.one_session entry
              (map (fun n => default x00 (Byte.of_N n))
                 (py "pinterest-token,tag123"))
              {| Bot.pinterest_token := py "pinterest-token";
                 Bot.amazon_tag := py "tag123" |})
    as (w1 & tr1 & w2 & tr2 & job' & l & Hstart & Hrun & Hjob & Hst & _
        & Hres & _).
  - exact plain_primitives_lawful.
  - exact Hkey.
  - rewrite Hentry. reflexivity.
  - reflexivity.
  - reflexivity.
  - reflexivity.
  - reflexivity.
  - by exists w1, tr1, w2, tr2, job', l.
Defined.

(** X21. When [start_automation] does not answer, it has changed
    nothing: for an unknown session it raises 401, and when the
    credentials cannot be encrypted it raises 500, in both cases without
    creating a job or adding a task. When it answers, the answer is the
    job id with [queued] and the job is in [active_jobs]. *)
Theorem start_automation_fails_cleanly
    (E : Main.Collaborators) (request : Main.AutomationRequestModel)
    (session job_id : pystr) (enc_now : Z) (iv : bytes) (w : Main.World) :
  match Main.start_automation E request session job_id enc_now iv w with
  | (Ok (j, s), w', _) =>
      j = job_id /\ s = Main.queued
      /\ is_Some (Main.encryption_keys w !! session)
      /\ (Main.status <$> Main.active_jobs w' !! job_id) = Some Main.queued
  | (Raise e, w', tr) =>
      w' = w /\ tr = []
      /\ (e = HTTPException 401 (py "Invalid session")
          \/ e = HTTPException 500 (py "Failed to start automation"))
  end.
Proof.
  unfold Main.start_automation, Main.verify_session.
  unfold Main.bind, Main.attempt, Main.get, Main.raise, Main.ret,
    Main.write, Main.now, Main.lift.
  cbv beta iota.
  destruct (Main.encryption_keys w !! session) as [entry|] eqn:Hkey;
    [|repeat split; by left].
  cbv beta iota. rewrite Hkey.
  destruct (Vault.encrypt_data (Main.crypto E) enc_now iv _ (Main.key entry))
    as [c|e]; simpl.
  - repeat split; [by eexists|]. by rewrite lookup_insert_eq.
  - repeat split. by right.
Qed.

Section ReadFacts.

Import Main Reads.

(** A job dictionary has no key ["job_id"], which [JobStatusModel]
    requires: the construction raises for every job. *)
Lemma job_status_model_raises (job : Job) :
  JobStatusModel (job_dict job)
  = Raise (Exception (py "validation error for JobStatusModel")).
Proof.
  assert (Hkey : job_dict job !! py "job_id" = None).
  { unfold job_dict.
    destruct (results job), (error job); vm_compute; reflexivity. }
  unfold JobStatusModel. rewrite Hkey. reflexivity.
Qed.

Lemma user_jobs_loop_spec (session : pystr) (jobs : list (pystr * Job)) :
  forall acc : list JobStatus,
    user_jobs_loop session jobs acc
    = if bool_decide (Exists (fun kv => session_id kv.2 = session) jobs)
      then Raise (Exception (py "validation error for JobStatusModel"))
      else Ok acc.
Proof.
  induction jobs as [|[j job] rest IH]; intros acc; simpl.
  - reflexivity.
  - destruct (bool_decide (session_id job = session)) eqn:Howner.
    + apply bool_decide_eq_true in Howner.
      rewrite job_status_model_raises.
      rewrite bool_decide_eq_true_2; [reflexivity|]. by left.
    + apply bool_decide_eq_false in Howner. rewrite IH.
      apply (f_equal (fun b : bool => if b then _ else _)).
      apply bool_decide_ext. rewrite Exists_cons. simpl. tauto.
Qed.

End ReadFacts.

(** X18. [get_job_status] never answers with a status and never changes
    the state: it raises 401 for an unknown session, 404 for an unknown
    job, 403 for the job of another session, and for a job of the session
    a validation error, because the job dictionary carries its id under
    ["id"] while [JobStatusModel] requires ["job_id"]. *)
Theorem get_job_status_never_answers (job_id session : pystr)
    (w : Main.World) :
  exists e,
    Reads.get_job_status job_id session w = (Raise e, w, [])
    /\ e = match Main.encryption_keys w !! session,
                 Main.active_jobs w !! job_id with
           | None, _ => HTTPException 401 (py "Invalid session")
           | Some _, None => HTTPException 404 (py "Job not found")
           | Some _, Some job =>
               if bool_decide (Main.session_id job = session)
               then Exception (py "validation error for JobStatusModel")
               else HTTPException 403 (py "Access denied")
           end.
Proof.
  unfold Reads.get_job_status, Main.verify_session.
  unfold Main.bind, Main.get, Main.raise, Main.ret, Main.lift.
  cbv beta iota.
  destruct (Main.encryption_keys w !! session) as [entry|];
    [|by eexists].
  cbv beta iota.
  destruct (Main.active_jobs w !! job_id) as [job|]; [|by eexists].
  destruct (bool_decide (Main.session_id job = session)); [|by eexists].
  rewrite job_status_model_raises. by eexists.
Qed.

(** X19. [get_user_jobs] never changes the state and lists no job: for a
    known session it returns the empty list when the session owns no job,
    and raises the validation error of [JobStatusModel] as soon as the
    session owns one; for an unknown session it raises 401. The jobs of
    other sessions are never shown. *)
Theorem get_user_jobs_lists_nothing (session : pystr) (w : Main.World) :
  match Main.encryption_keys w !! session with
  | None =>
      Reads.get_user_jobs session w
      = (Raise (HTTPException 401 (py "Invalid session")), w, [])
  | Some _ =>
      (Reads.get_user_jobs session w = (Ok [], w, [])
       /\ forall j job, Main.active_jobs w !! j = Some job ->
            Main.session_id job <> session)
      \/ (Reads.get_user_jobs session w
          = (Raise (Exception (py "validation error for JobStatusModel")),
             w, [])
          /\ exists j job, Main.active_jobs w !! j = Some job
                           /\ Main.session_id job = session)
  end.
Proof.
  unfold Reads.get_user_jobs, Main.verify_session.
  unfold Main.bind, Main.get, Main.raise, Main.ret, Main.lift.
  cbv beta iota.
  destruct (Main.encryption_keys w !! session) as [entry|];
    [|reflexivity].
  cbv beta iota. rewrite user_jobs_loop_spec.
  destruct (decide (Exists (fun kv : pystr * Main.Job =>
                              Main.session_id kv.2 = session)
                      (map_to_list (Main.active_jobs w)))) as [Hex|Hno].
  - right. rewrite bool_decide_eq_true_2 by exact Hex.
    split; [reflexivity|].
    apply Exists_exists in Hex as ([j job] & Hin%elem_of_map_to_list & Howner).
    by exists j, job.
  - left. rewrite bool_decide_eq_false_2 by exact Hno.
    split; [reflexivity|].
    intros j job Hjob Howner. apply Hno, Exists_exists.
    exists (j, job). split; [by apply elem_of_map_to_list | exact Howner].
Qed.

(** X20. The validator of [categories] accepts a list, returning it
    unchanged, exactly when all its entries are in the allow-list;
    otherwise it raises, and the message names the first entry of the
    list that is not in the allow-list. The validator of
    [max_products_per_category] accepts exactly the values from 1 to
    20. *)
Theorem config_validators (v : list pystr) (n : Z) :
  (Main.validate_categories v = Ok v
   <-> Forall (fun cat => cat ∈ Main.valid_categories) v)
  /\ (forall e, Main.validate_categories v = Raise e ->
        exists before cat after,
          v = before ++ cat :: after
          /\ Forall (fun c => c ∈ Main.valid_categories) before
          /\ (cat ∉ Main.valid_categories)
          /\ e = Exception (py "Invalid category: " ++ cat))
  /\ (Main.validate_max_products n = Ok n <-> 1 <= n <= 20)
  /\ (Main.validate_max_products n = Ok n
      \/ exists e, Main.validate_max_products n = Raise e).
Proof.
  unfold Main.validate_categories, Main.validate_max_products.
  split; [|split; [|split]].
  - induction v as [|cat rest IH]; simpl; [by split|].
    destruct (bool_decide (cat ∈ Main.valid_categories)) eqn:Hcat; simpl.
    + apply bool_decide_eq_true in Hcat.
      destruct (List.find _ rest) as [bad|]; [|by split; [constructor; tauto|]].
      split; [discriminate|].
      intros [_ Hrest]%Forall_cons. by apply IH in Hrest.
    + apply bool_decide_eq_false in Hcat. split; [discriminate|].
      by intros [Hin _]%Forall_cons.
  - induction v as [|cat rest IH]; simpl; intros e; [discriminate|].
    destruct (bool_decide (cat ∈ Main.valid_categories)) eqn:Hcat; simpl.
    + apply bool_decide_eq_true in Hcat.
      destruct (List.find _ rest) as [bad|] eqn:Hfind; [|discriminate].
      intros He. destruct (IH e He) as (before & c & after & -> & Hb & Hc & ->).
      exists (cat :: before), c, after. repeat split; try done.
      by constructor.
    + apply bool_decide_eq_false in Hcat. intros [= <-].
      exists [], cat, rest. by repeat split.
  - destruct (Z.ltb_spec n 1), (Z.ltb_spec 20 n); simpl;
      split; try discriminate; try lia; done.
  - destruct ((n <? 1) || (20 <? n)); [right; by eexists | by left].
Qed.

(** X22. With an empty list of categories the task calls the bot for
    nothing: a job whose credentials decrypt ends [completed] with empty
    results (all totals 0, no category entry), and its progress keeps the
    keys it had, only [overall_progress] being set to 100; the job's
    [updated_at] is the time of the task's last clock reading. *)
Theorem task_without_categories
    (E : Main.Collaborators) (job_id enc : pystr)
    (config : Main.AutomationConfigModel) (key : bytes) (w : Main.World)
    (job : Main.Job) (bot : Bot.Self) :
  Main.active_jobs w !! job_id = Some job ->
  Logic.prepared_bot E enc key = Ok bot ->
  Main.categories config = [] ->
  exists w' tr l,
    Main.run_automation_task E job_id enc config key w = (Ok tt, w', tr)
    /\ Main.active_jobs w' !! job_id
       = Some (Main.set_updated_at (S (Main.clock w))
                 (Main.set_progress
                    (Main.set_overall_progress 100 (Main.progress job))
                    (Main.set_results (Some l)
                       (Main.set_status Main.completed job))))
    /\ Main.objects w' !! l
       = Some {| Main.total_products_found := 0;
                 Main.total_pins_created := 0;
                 Main.total_errors := 0;
                 Main.category_results := ∅ |}
    /\ Main.objects w !! l = None.
Proof.
  intros Hjob Hprep Hcats.
  unfold Main.run_automation_task, Main.task_try, Logic.prepared_bot in *.
  rewrite Hcats.
  unfold Main.alloc, Main.job_write, Main.bind, Main.attempt, Main.get,
    Main.write, Main.now, Main.lift, Main.ret, Main.bind.
  rewrite Hjob. repeat (progress (simpl; rewrite ?lookup_insert_eq)).
  destruct (Vault.decrypt_data (Main.crypto E) enc key) as [cj|e1];
    simpl in Hprep; [|discriminate].
  destruct (Main.json_loads E cj) as [cr|e2]; simpl in Hprep; [|discriminate].
  rewrite Hprep. repeat (progress (simpl; rewrite ?lookup_insert_eq)).
  eexists _, _, (fresh (dom (Main.objects w))).
  split; [reflexivity|]. simpl.
  rewrite !lookup_insert_eq. repeat split.
  apply not_elem_of_dom, is_fresh.
Qed.

Lemma task_without_categories_witness :
  let E := Scenario.collaborators (fun _ => Scenario.no_boards) in
  exists w' tr l job',
    Main.run_automation_task E (py "job-1") (py "pinterest-token,tag123")
      (Scenario.the_config []) (replicate 32 x00)
      (Scenario.submitted E []) = (Ok tt, w', tr)
    /\ Main.active_jobs w' !! py "job-1" = Some job'
    /\ Main.status job' = Main.completed
    /\ Main.overall_progress (Main.progress job') = 100%Q
    /\ Main.current_category (Main.progress job') = None
    /\ (Main.total_errors <$> Main.objects w' !! l) = Some 0.
Proof.
  intros E.
  destruct (Main.active_jobs (Scenario.submitted E []) !! py "job-1")
    as [job|] eqn:Hsubmitted; [|vm_compute in Hsubmitted; discriminate].
  destruct (task_without_categories E (py "job-1")
              (py "pinterest-token,tag123") (Scenario.the_config [])
              (replicate 32 x00) (Scenario.submitted E []) job
              {| Bot.pinterest_token := py "pinterest-token";
                 Bot.amazon_tag := py "tag123" |})
    as (w' & tr & l & Hrun & Hjob' & Hobj & _).
  - exact Hsubmitted.
  - vm_compute. reflexivity.
  - reflexivity.
  - eexists w', tr, l, _. split; [exact Hrun|]. split; [exact Hjob'|].
    vm_compute in Hsubmitted. injection Hsubmitted as <-.
    rewrite Hobj. by repeat split.
Defined.
